(** * Region selection and vocabulary extraction of [1_Preprocessing.ipynb]

    A shallow embedding of the notebook's five functions
    ([extract_region_label], [extract_region_labels_from_images],
    [find_target_region], [extract_vocab] inside
    [extract_vocab_from_region_labels]) and of the cells that call them,
    up to cell 12, which saves the two arrays.

    Conventions.
    - A Python/numpy [float64] is a primitive binary64 [float]; comparisons,
      negation, subtraction, [abs] and [sqrt] are the IEEE operations, so
      rounding and NaN behave as they do in the notebook.
    - A Python [int] is a [Z]; loop indices produced by [range] are [nat].
    - An exception is a value of type [exn]; a call that may raise returns
      [exn + A].
    - The calls into scikit-image and numpy that the notebook does not define
      ([threshold_otsu], [closing], [label], [regionprops], [np.max]) are the
      fields of a record [library]; every function takes the library it runs
      against, and every theorem holds for all of them.
    - The notebook has one global, the list [failed_indexes]; it is threaded
      through the two loops together with what the [except] branches print.
    - The memory [np.empty] hands out and the operating system's answer to
      a write of cell 12 are parameters too ([uninitialized], [os]); the
      files are a map from paths to contents.
    - Progress counters written to stdout and the optional plotting branch
      ([show_images]) carry no data and are left out. *)

From Stdlib Require Import ZArith List Floats Lia Sorted Permutation.
From Stdlib Require Import Decimal DecimalNat DecimalString.
From stdpp Require Import base list strings gmap sorting.

#[local] Set Warnings "-inexact-float".
#[local] Open Scope string_scope.
#[local] Open Scope list_scope.

(** ** binary64 *)

Module Float64.

Definition lt (x y : float) : bool := PrimFloat.ltb x y.
Definition le (x y : float) : bool := PrimFloat.leb x y.

(** [int -> float64] conversion, rounding to nearest even. *)
Definition of_Z (z : Z) : float :=
  SF2Prim (binary_normalize prec emax z 0 false).

End Float64.

(** ** Exceptions and indexing *)

(** One element of an exception's [args] tuple. *)
Inductive arg :=
| AStr (s : string)
| AFloat (x : float)
| APairs (l : list (Z * float)).

Inductive exn :=
| ValueError (args : list arg)
| IndexError
| KeyError (key : string).

Definition raise {A} (e : exn) : exn + A := inl e.

Definition bind {A B} (m : exn + A) (k : A -> exn + B) : exn + B :=
  match m with
  | inl e => inl e
  | inr a => k a
  end.

Notation "x <- m ;; k" := (bind m (fun x => k))
  (at level 100, m at next level, right associativity).

(** [l[i]] *)
Definition getitem {A} (l : list A) (i : nat) : exn + A :=
  match l !! i with
  | Some x => inr x
  | None => raise IndexError
  end.

(** [l[i] = x] *)
Definition setitem {A} (l : list A) (i : nat) (x : A) : exn + list A :=
  if (i <? length l)%nat then inr (<[i:=x]> l) else raise IndexError.

(** [for i in indices: s = body(i, s)], stopping at the first exception that the
    body lets through. *)
Fixpoint for_range {S} (body : nat -> S -> exn + S) (indices : list nat)
    (s : S) : exn + S :=
  match indices with
  | [] => inr s
  | i :: rest => s' <- body i s ;; for_range body rest s'
  end.

(** [range(n)] *)
Definition range (n : nat) : list nat := seq 0 n.

(** [sorted(l, key=key)]: a stable sort that compares keys with [<] only.
    It is the list CPython returns in two cases, and the statements that
    speak of a sorted list of three entries or more carry one of them as a
    hypothesis:
    - no key is NaN: [<] is then a strict weak order, and every stable sort
      returns the same list;
    - [l] has two entries at most: CPython swaps two entries exactly when
      the key of the second is [<] the key of the first, as [insert_sorted]
      does.
    On three entries or more with a NaN key, CPython's result depends on the
    order of its comparisons (it takes the longest sorted prefix, then
    inserts by bisection) and may differ from this list. *)
Fixpoint insert_sorted {A} (key : A -> float) (x : A) (l : list A) : list A :=
  match l with
  | [] => [x]
  | y :: l' =>
      if Float64.lt (key y) (key x) then y :: insert_sorted key x l'
      else x :: y :: l'
  end.

Definition sorted {A} (key : A -> float) (l : list A) : list A :=
  foldr (insert_sorted key) [] l.

(** ** Arrays and region descriptors *)

(** A 2-D array is the list of its rows. *)
Definition image := list (list float).
Definition mask := list (list bool).
Definition label_map := list (list Z).

(** [a.shape[0]] *)
Definition shape0 {A} (a : list (list A)) : Z := Z.of_nat (length a).

(** [np.linalg.norm] of a vector of two entries: [sqrt(dot(x, x))], the dot
    product summed left to right. *)
Definition norm (v : float * float) : float :=
  PrimFloat.sqrt (PrimFloat.add (PrimFloat.mul (fst v) (fst v))
                                (PrimFloat.mul (snd v) (snd v))).

(** The attributes of a scikit-image [RegionProperties] that the notebook
    reads. [centroid] is (row, column); [bbox] is
    (min_row, min_col, max_row, max_col). *)
Record region := {
  area : Z;
  bbox : Z * Z * Z * Z;
  centroid : float * float;
  eccentricity : float;
  equivalent_diameter : float;
  extent : float;
  major_axis_length : float;
  minor_axis_length : float;
  perimeter : float;
  max_intensity : float;
  mean_intensity : float;
  min_intensity : float
}.

(** What [region[key]] can evaluate to. *)
Inductive prop_value :=
| PInt (z : Z)
| PFloat (x : float)
| PFloats (xs : list float)
| PInts (zs : list Z).

(** [region[key]]: the attribute of that name. *)
Definition region_getitem (r : region) (key : string) : exn + prop_value :=
  if String.eqb key "area" then inr (PInt (area r))
  else if String.eqb key "bbox" then
    let '(a, b, c, d) := bbox r in inr (PInts [a; b; c; d])
  else if String.eqb key "centroid" then
    inr (PFloats [fst (centroid r); snd (centroid r)])
  else if String.eqb key "eccentricity" then inr (PFloat (eccentricity r))
  else if String.eqb key "equivalent_diameter" then
    inr (PFloat (equivalent_diameter r))
  else if String.eqb key "extent" then inr (PFloat (extent r))
  else if String.eqb key "major_axis_length" then
    inr (PFloat (major_axis_length r))
  else if String.eqb key "minor_axis_length" then
    inr (PFloat (minor_axis_length r))
  else if String.eqb key "perimeter" then inr (PFloat (perimeter r))
  else if String.eqb key "max_intensity" then inr (PFloat (max_intensity r))
  else if String.eqb key "mean_intensity" then inr (PFloat (mean_intensity r))
  else if String.eqb key "min_intensity" then inr (PFloat (min_intensity r))
  else raise (KeyError key).

(** The conversion numpy applies when a value is stored into one cell of a
    [float64] array. *)
Definition to_float64 (v : prop_value) : exn + float :=
  match v with
  | PInt z => inr (Float64.of_Z z)
  | PFloat x => inr x
  | PFloats _ | PInts _ =>
      raise (ValueError [AStr "setting an array element with a sequence."])
  end.

(** ** [find_target_region] *)

Definition WIDTH_DELTA_THRESHOLD : float := 25.
Definition HEIGHT_DELTA_THRESHOLD : float := 15.
Definition AREA_THRESHOLD : Z := 30.
Definition ECCENTRICITY_THRESHOLD : float := 0.98.

(** The helper nested in [find_target_region]. *)
Definition two_regions_close (two_regions : list region) : bool :=
  match two_regions with
  | [r0; r1] =>
      let width_delta :=
        PrimFloat.abs (PrimFloat.sub (snd (centroid r0)) (snd (centroid r1))) in
      let height_delta :=
        PrimFloat.abs (PrimFloat.sub (fst (centroid r0)) (fst (centroid r1))) in
      Float64.lt width_delta WIDTH_DELTA_THRESHOLD
      && Float64.lt height_delta HEIGHT_DELTA_THRESHOLD
  | _ => false
  end.

(** The predicate of the [filter] call. *)
Definition large_and_round (x : region) : bool :=
  (AREA_THRESHOLD <=? area x)%Z
  && Float64.lt (eccentricity x) ECCENTRICITY_THRESHOLD.

(** The key of the last [sorted] call: distance of the centroid to
    [bottom_left = np.array([image.shape[0], 0])]. *)
Definition bottom_left_distance (height : Z) (x : region) : float :=
  let bottom_left := (Float64.of_Z height, Float64.of_Z 0) in
  norm (PrimFloat.sub (fst bottom_left) (fst (centroid x)),
        PrimFloat.sub (snd bottom_left) (snd (centroid x))).

(** The body of [find_target_region] from the line after the [regionprops]
    call on; [height] is [image.shape[0]]. *)
Definition select_region (regions : list region) (height : Z) : exn + region :=
  let filtered := List.filter large_and_round regions in
  if (length filtered =? 0)%nat then
    raise (ValueError [AStr "bad threshold";
                       APairs (map (fun r => (area r, eccentricity r)) regions)])
  else
    let sorted_mean_intensity :=
      take 2 (sorted (fun x => PrimFloat.opp (mean_intensity x)) filtered) in
    if two_regions_close sorted_mean_intensity then
      getitem (sorted (fun x => PrimFloat.opp (snd (centroid x)))
                      sorted_mean_intensity) 0
    else
      getitem (sorted (bottom_left_distance height) sorted_mean_intensity) 0.

(** The value of [sorted_mean_intensity] in [select_region]. *)
Definition top_two (regions : list region) : list region :=
  take 2 (sorted (fun x => PrimFloat.opp (mean_intensity x))
                 (List.filter large_and_round regions)).

(** [extract_vocab], the helper nested in [extract_vocab_from_region_labels]. *)
Definition fields : list string :=
  ["area"; "eccentricity"; "equivalent_diameter"; "extent";
   "major_axis_length"; "minor_axis_length"; "perimeter";
   "max_intensity"; "mean_intensity"; "min_intensity"].

Definition extract_vocab (region : region) : exn + list float :=
  for_range
    (fun i vocab =>
       key <- getitem fields i ;;
       v <- region_getitem region key ;;
       x <- to_float64 v ;;
       setitem vocab i x)
    (range 10) (replicate 10 0%float).

(** Cell 4 and the two batch functions share the global list
    [failed_indexes]; [printed] is what the two [except] branches print:
    the image index and [err.args]. *)
Record globals := {
  failed_indexes : list (nat * string);
  printed : list (nat * list arg)
}.

Definition report (g : globals) (i : nat) (args : list arg) (stage : string)
  : globals :=
  {| failed_indexes := failed_indexes g ++ [(i, stage)];
     printed := printed g ++ [(i, args)] |}.

(** [np.zeros((rows, cols))] *)
Definition np_zeros (rows cols : nat) : list (list float) :=
  replicate rows (replicate cols 0%float).

(** [m[:, i] = v] for a vector [v] with one entry per row of [m]. *)
Definition set_column (m : list (list float)) (i : nat) (v : list float)
  : exn + list (list float) :=
  if negb (length v =? length m)%nat then
    raise (ValueError [AStr "could not broadcast input array"])
  else if forallb (fun row => (i <? length row)%nat) m then
    inr (zip_with (fun row x => <[i:=x]> row) m v)
  else raise IndexError.

(** ** The library calls *)

(** The scikit-image and numpy functions the notebook calls and does not
    define:
    - [threshold_otsu(image)], [None] when the call raises;
    - [np.max(image)], [None] when the call raises, which it does on an
      array without a single entry (a [ValueError]: the maximum of nothing);
    - [closing(bw, square(2))];
    - [label(bw, connectivity=2)];
    - [regionprops(label_image, intensity_image)]. *)
Record library := {
  threshold_otsu : image -> option float;
  np_max : image -> option float;
  closing_square2 : mask -> mask;
  label_connectivity2 : mask -> label_map;
  regionprops : label_map -> image -> list region
}.

(** ** The notebook's functions *)

Section Notebook.

Variable lib : library.

(** The arguments of the error that leaves the [except] branch of
    [extract_region_label]: those of the [ValueError] the branch builds or,
    when [np.max] raises while the branch evaluates them, those of numpy's
    own [ValueError]. *)
Definition otsu_error_args (image : image) : list arg :=
  match np_max lib image with
  | Some maximum =>
      [AStr "invalid image for otsu thresholding"; AFloat maximum]
  | None =>
      [AStr "zero-size array to reduction operation maximum which has no identity"]
  end.

Definition extract_region_label (image : image) : exn + label_map :=
  match threshold_otsu lib image with
  | None => raise (ValueError (otsu_error_args image))
  | Some thresh =>
      let bw :=
        closing_square2 lib (map (map (fun p => Float64.lt thresh p)) image) in
      let region_label := label_connectivity2 lib bw in
      inr region_label
  end.

Definition find_target_region (region_label : label_map) (image : image)
  : exn + region :=
  let regions := regionprops lib region_label image in
  select_region regions (shape0 image).

(** [np.empty(images.shape)]: one slot per image, holding whatever the
    allocator left there. [region_labels] is a [float64] array and
    [find_target_region] casts its slot back with [astype(int)]; a slot is
    modelled by the integer array that cast yields, which for a slot
    written by [extract_region_label] is the label array itself. *)
Definition np_empty (uninitialized : nat -> label_map) (n : nat)
  : list label_map :=
  map uninitialized (range n).

(** One turn of the loop of [extract_region_labels_from_images]. *)
Definition region_labels_turn (images : list image) (i : nat)
    (s : list label_map * globals) : exn + (list label_map * globals) :=
  let '(region_labels, g) := s in
  image <- getitem images i ;;
  match (region_label <- extract_region_label image ;;
         setitem region_labels i region_label) with
  | inr region_labels' => inr (region_labels', g)
  | inl (ValueError args) =>
      inr (region_labels, report g i args "extract_region_label")
  | inl e => inl e
  end.

Definition extract_region_labels_from_images (images : list image)
    (uninitialized : nat -> label_map) (g : globals)
  : exn + (list label_map * globals) :=
  let region_labels := np_empty uninitialized (length images) in
  for_range (region_labels_turn images) (range (length images))
            (region_labels, g).

(** One turn of the loop of [extract_vocab_from_region_labels]. *)
Definition vocab_turn (region_labels : list label_map) (images : list image)
    (i : nat) (s : list (list float) * globals)
  : exn + (list (list float) * globals) :=
  let '(vocab_matrix, g) := s in
  region_label <- getitem region_labels i ;;
  image <- getitem images i ;;
  match (region <- find_target_region region_label image ;;
         vocab <- extract_vocab region ;;
         set_column vocab_matrix i vocab) with
  | inr vocab_matrix' => inr (vocab_matrix', g)
  | inl (ValueError args) =>
      inr (vocab_matrix, report g i args "find_target_region")
  | inl e => inl e
  end.

Definition extract_vocab_from_region_labels (region_labels : list label_map)
    (images : list image) (g : globals)
  : exn + (list (list float) * globals) :=
  let vocab_matrix := np_zeros 10 (length images) in
  for_range (vocab_turn region_labels images) (range (length images))
            (vocab_matrix, g).

(** Cells 4, 6 and 10 in order: the value of [vocab_matrix] and the
    globals when the notebook reaches the cell that saves them. *)
Definition run_notebook (images : list image)
    (uninitialized : nat -> label_map)
  : exn + (list (list float) * globals) :=
  let g := {| failed_indexes := []; printed := [] |} in
  labelled <- extract_region_labels_from_images images uninitialized g ;;
  let '(region_labels, g) := labelled in
  extract_vocab_from_region_labels region_labels images g.

(** ** The per-image pipeline and the closed form of the two loops *)

(** The three calls the notebook makes for one image, in the order it
    makes them. *)
Definition process_image (image : image) : exn + list float :=
  region_label <- extract_region_label image ;;
  region <- find_target_region region_label image ;;
  extract_vocab region.

(** What one turn of the first loop does to [region_labels], and what it
    reports. *)
Definition store_label (images : list image) (region_labels : list label_map)
    (i : nat) : list label_map :=
  match images !! i with
  | Some image =>
      match extract_region_label image with
      | inr region_label => <[i:=region_label]> region_labels
      | inl _ => region_labels
      end
  | None => region_labels
  end.

Definition label_failure (images : list image) (i : nat)
  : option (nat * list arg) :=
  match images !! i with
  | Some image =>
      match extract_region_label image with
      | inl (ValueError args) => Some (i, args)
      | _ => None
      end
  | None => None
  end.

(** The value of the [try] block of the second loop for index [i], up to the
    store into the matrix. *)
Definition vocab_of (region_labels : list label_map) (images : list image)
    (i : nat) : exn + list float :=
  region_label <- getitem region_labels i ;;
  image <- getitem images i ;;
  region <- find_target_region region_label image ;;
  extract_vocab region.

Definition store_vocab (region_labels : list label_map) (images : list image)
    (vocab_matrix : list (list float)) (i : nat) : list (list float) :=
  match vocab_of region_labels images i with
  | inr vocab => zip_with (fun row x => <[i:=x]> row) vocab_matrix vocab
  | inl _ => vocab_matrix
  end.

Definition vocab_failure (region_labels : list label_map)
    (images : list image) (i : nat) : option (nat * list arg) :=
  match vocab_of region_labels images i with
  | inl (ValueError args) => Some (i, args)
  | _ => None
  end.

(** Image [i] fails at thresholding. *)
Definition threshold_fails (images : list image) (i : nat) : bool :=
  match images !! i with
  | Some image =>
      match threshold_otsu lib image with None => true | Some _ => false end
  | None => false
  end.

(** The call [find_target_region(region_labels[i], images[i])] raises. *)
Definition selection_fails (region_labels : list label_map)
    (images : list image) (i : nat) : bool :=
  match region_labels !! i, images !! i with
  | Some region_label, Some image =>
      match find_target_region region_label image with
      | inl _ => true
      | inr _ => false
      end
  | _, _ => false
  end.

(** [region_labels] as the first loop leaves it. *)
Definition final_region_labels (images : list image)
    (uninitialized : nat -> label_map) : list label_map :=
  foldl (store_label images) (np_empty uninitialized (length images))
        (range (length images)).

End Notebook.

(** The array cell 12 saves as [failed_indexes.npy]:
    [np.array(failed_indexes)[:,0].astype(int)]. *)
Definition failed_index_list (g : globals) : list nat :=
  map fst (failed_indexes g).

(** A list of image indices is in input order: of two entries, the one of
    the earlier image stands first. *)
Definition in_input_order (l : list nat) : Prop :=
  forall p q i j, l !! p = Some i -> l !! q = Some j -> (i < j)%nat -> (p < q)%nat.

(** [g] after the reports [rs] of one loop, all tagged [stage]. *)
Definition reports (g : globals) (stage : string) (rs : list (nat * list arg))
  : globals :=
  {| failed_indexes := failed_indexes g ++ map (fun r => (fst r, stage)) rs;
     printed := printed g ++ rs |}.

(** [m] has [rows] rows of [cols] entries. *)
Definition has_shape (m : list (list float)) (rows cols : nat) : Prop :=
  length m = rows /\ Forall (fun row => length row = cols) m.

(** [m[:, i]] *)
Definition mcolumn (m : list (list float)) (i : nat) : option (list float) :=
  mapM (fun row => row !! i) m.

(** [[f(x) for x in l]], stopping at the first exception. *)
Fixpoint for_each {A B} (f : A -> exn + B) (l : list A) : exn + list B :=
  match l with
  | [] => inr []
  | x :: l' => y <- f x ;; ys <- for_each f l' ;; inr (y :: ys)
  end.

(** ** Cell 12: saving the two arrays *)

(** [s.startswith(prefix)] and [s.endswith(suffix)] *)
Definition startswith (prefix s : string) : bool := String.prefix prefix s.

Fixpoint endswith (suffix s : string) : bool :=
  String.eqb s suffix
  || match s with
     | EmptyString => false
     | String _ s' => endswith suffix s'
     end.

(** [os.path.join(a, b)] on a POSIX system. *)
Definition os_path_join (a b : string) : string :=
  if startswith "/" b then b
  else if String.eqb a "" || endswith "/" a then a +:+ b
  else a +:+ "/" +:+ b.

(** The directory part [os.path.join] puts in front of a relative name. *)
Definition joined_prefix (a : string) : string :=
  if String.eqb a "" || endswith "/" a then a else a +:+ "/".

(** What an [.npy] file holds: the matrix, the index array, or the
    beginning of an array whose writing broke off. *)
Inductive npy :=
| FloatArray (m : list (list float))
| IntArray (l : list nat)
| Incomplete.

(** The files below the working directory, by path. *)
Definition files := gmap string npy.

(** The [OSError]s that writing a file can raise: a directory of the path
    is missing, the directory or the file may not be written, the path names
    a directory, a component of the path is a file, the disk is full. *)
Inductive os_error :=
| FileNotFoundError
| PermissionError
| IsADirectoryError
| NotADirectoryError
| NoSpaceLeft.

(** How the operating system answers an attempt to write an array to a
    path: the file is written; or the path does not open for writing; or it
    opens and the writing breaks off. *)
Inductive save_result :=
| Saved
| Refused (kind : os_error)
| Broken (kind : os_error).

(** What can leave cell 12: an exception of the Python code above, or the
    [OSError] of a path that could not be written. *)
Inductive cell_exn :=
| Raised (e : exn)
| OSError (kind : os_error) (file : string).

(** [np.save(file, arr)]: the extension is appended to a name without it,
    the path is opened for writing and the array is written. [os] is the
    operating system's answer for a path and an array. The result is the
    files after the call and the exception it raised, if any: a path that
    does not open leaves the files as they were, and a writing that breaks
    off leaves an incomplete file. *)
Definition np_save (os : string -> npy -> save_result) (file : string)
    (arr : npy) (fs : files) : files * option cell_exn :=
  let file := if endswith ".npy" file then file else file +:+ ".npy" in
  match os file arr with
  | Saved => (<[file := arr]> fs, None)
  | Refused kind => (fs, Some (OSError kind file))
  | Broken kind => (<[file := Incomplete]> fs, Some (OSError kind file))
  end.

(** [str(i)] of a non-negative integer, and [int(s)] of a string of decimal
    digits (of anything else it is a [ValueError]). *)
Definition str_of_int (i : nat) : string :=
  NilZero.string_of_uint (Nat.to_uint i).

Definition int_of_str (s : string) : exn + nat :=
  match NilZero.uint_of_string s with
  | Some d => inr (Nat.of_uint d)
  | None => raise (ValueError [AStr "invalid literal for int() with base 10"])
  end.

(** [np.array(failed_indexes)]: the tuples mix integers and strings, so the
    array is one of strings; from the empty list it has one axis, else it has
    a row per tuple. *)
Inductive str_array :=
| Axis1 (entries : list string)
| Axis2 (rows : list (list string)).

Definition np_array (records : list (nat * string)) : str_array :=
  match records with
  | [] => Axis1 []
  | _ => Axis2 (map (fun r => [str_of_int (fst r); snd r]) records)
  end.

(** [a[:, 0]] *)
Definition first_column (a : str_array) : exn + list string :=
  match a with
  | Axis1 _ => raise IndexError
  | Axis2 rows => for_each (fun row => getitem row 0) rows
  end.

(** [a.astype(int)] on one axis. *)
Definition astype_int (a : list string) : exn + list nat :=
  for_each int_of_str a.

(** Cell 12, run on the files [fs] with [OUTPUT_DIR] set to [output_dir]:
    the files after the cell and the exception that ended it, if any. A file
    written before the exception stays written. The three [print] lines are
    left out. *)
Definition save_outputs (os : string -> npy -> save_result)
    (output_dir : string) (vocab_matrix : list (list float)) (g : globals)
    (fs : files) : files * option cell_exn :=
  let out_file := os_path_join output_dir "vocab_matrix.npy" in
  match np_save os out_file (FloatArray vocab_matrix) fs with
  | (fs, Some e) => (fs, Some e)
  | (fs, None) =>
      if (0 <? length (failed_indexes g))%nat then
        let failed_indexes_file :=
          os_path_join output_dir "failed_indexes.npy" in
        match (column <- first_column (np_array (failed_indexes g)) ;;
               astype_int column) with
        | inl e => (fs, Some (Raised e))
        | inr indexes => np_save os failed_indexes_file (IntArray indexes) fs
        end
      else (fs, None)
  end.

(** The notebook from cell 4 to cell 12. *)
Definition run_and_save (lib : library) (os : string -> npy -> save_result)
    (output_dir : string) (images : list image)
    (uninitialized : nat -> label_map) (fs : files)
  : files * option cell_exn :=
  match run_notebook lib images uninitialized with
  | inl e => (fs, Some (Raised e))
  | inr (vocab_matrix, g) => save_outputs os output_dir vocab_matrix g fs
  end.

(** How many records of [l] carry the index [i]. *)
Definition count_index {B} (i : nat) (l : list (nat * B)) : nat :=
  length (List.filter (fun p => (fst p =? i)%nat) l).

(** ** Test doubles for the scikit-image calls

    Small stand-ins used by the closed examples: thresholding fails exactly
    on an image with a single intensity, closing changes nothing, all
    foreground pixels form one blob labelled 1, and the blob's descriptor
    carries its pixel count as area. *)

Module Doubles.

Definition pixels (image : image) : list float := concat image.

Definition fmax (x y : float) : float := if Float64.lt x y then y else x.
Definition fmin (x y : float) : float := if Float64.lt y x then y else x.

Definition image_max (image : image) : option float :=
  match pixels image with
  | [] => None
  | p :: ps => Some (foldl fmax p ps)
  end.

Definition image_min (image : image) : option float :=
  match pixels image with
  | [] => None
  | p :: ps => Some (foldl fmin p ps)
  end.

Definition otsu (image : image) : option float :=
  match image_min image, image_max image with
  | Some darkest, Some brightest =>
      if Float64.lt darkest brightest then
        Some (PrimFloat.div (PrimFloat.add darkest brightest) 2)
      else None
  | _, _ => None
  end.

Definition one_blob (bw : mask) : label_map :=
  map (map (fun b : bool => if b then 1%Z else 0%Z)) bw.

(** A descriptor with the given area, eccentricity, centroid and mean
    intensity. *)
Definition candidate (a : Z) (e : float) (c : float * float) (mean : float)
  : region :=
  {| area := a; bbox := (0, 0, 0, 0)%Z; centroid := c;
     eccentricity := e; equivalent_diameter := 0; extent := 0;
     major_axis_length := 0; minor_axis_length := 0; perimeter := 0;
     max_intensity := mean; mean_intensity := mean; min_intensity := mean |}.

Definition blob_props (region_label : label_map) (_ : image) : list region :=
  let n := Z.of_nat (length (List.filter (fun l => (0 <? l)%Z)
                                         (concat region_label))) in
  if (n =? 0)%Z then [] else [candidate n 0 (0, 0)%float 0].

Definition lib : library :=
  {| threshold_otsu := otsu; np_max := image_max;
     closing_square2 := fun bw => bw; label_connectivity2 := one_blob;
     regionprops := blob_props |}.

(** The same, with [regionprops] handing over a given descriptor list. *)
Definition lib_with (regions : list region) : library :=
  {| threshold_otsu := otsu; np_max := image_max;
     closing_square2 := fun bw => bw; label_connectivity2 := one_blob;
     regionprops := fun _ _ => regions |}.

(** One bright pixel on a dark background. *)
Definition speck : image := [[0; 0]; [0; 9]]%float.
(** A single intensity everywhere. *)
Definition flat : image := [[3; 3]; [3; 3]]%float.
(** Freshly mapped memory reads as zero. *)
Definition zero_filled : nat -> label_map := fun _ => [[0; 0]; [0; 0]]%Z.
(** An image of 100 rows. *)
Definition tall : image := replicate 100 [0%float].

(** Equally bright descriptors, named by what the selector makes of them. *)
Definition too_small : region := candidate 29 0.5 (10, 10)%float 7.
Definition too_long : region := candidate 40 0.98 (10, 30)%float 7.
Definition left_lobe : region := candidate 30 0.5 (10, 10)%float 7.
Definition right_lobe : region := candidate 40 0.5 (10, 30)%float 7.
Definition top_blob : region := candidate 30 0.5 (5, 5)%float 7.
Definition bottom_blob : region := candidate 40 0.5 (90, 5)%float 7.

End Doubles.

(** Further sample descriptors, of different brightness. *)
Module Samples.

Definition dim : region := Doubles.candidate 30 0.5 (10, 10)%float 5.
Definition bright : region := Doubles.candidate 40 0.5 (10, 30)%float 7.
Definition medium : region := Doubles.candidate 50 0.5 (80, 5)%float 6.

(** The labelling of [Doubles.speck] under [Doubles.lib]. *)
Definition speck_labels : label_map := [[0; 0]; [0; 1]]%Z.

(** A single intensity on 6 rows of 6 pixels, and two states of the memory
    that [np.empty] hands out for a batch of such images: zeroed pages, and
    pages that still hold a block of ones. *)
Definition flat6 : image := replicate 6 (replicate 6 3%float).
Definition zeroed_pages : nat -> label_map :=
  fun _ => replicate 6 (replicate 6 0%Z).
Definition stale_pages : nat -> label_map :=
  fun _ => replicate 6 (replicate 6 1%Z).

(** A working directory whose only subdirectory is [out], writable and
    with room: a file is written when its path starts with [out/], and no
    other path opens. *)
Definition only_out (file : string) (_ : npy) : save_result :=
  if startswith "out/" file then Saved else Refused FileNotFoundError.

End Samples.

(** * Properties *)

(** ** Facts about binary64 comparisons *)

Module Float64Facts.
Import Float64.

Lemma compare_cont_Eq_antisym (p q : positive) :
  Pos.compare_cont Eq q p = CompOpp (Pos.compare_cont Eq p q).
Proof. exact (Pos.compare_antisym p q). Qed.

Ltac by_signs sx sy :=
  try reflexivity; try (destruct sx; reflexivity);
  try (destruct sy; reflexivity); try (destruct sx, sy; reflexivity).

Ltac finite_case sx sy mx my ex ey :=
  f_equal;
  destruct sx, sy; simpl; try reflexivity;
  rewrite (Z.compare_antisym ex ey);
  destruct (ex ?= ey)%Z; simpl; try reflexivity;
  change (PosDef.Pos.compare_cont Eq ?a ?b) with (Pos.compare_cont Eq a b);
  rewrite (compare_cont_Eq_antisym mx my);
  destruct (Pos.compare_cont Eq mx my); reflexivity.

Lemma SFcompare_antisym (x y : spec_float) :
  SFcompare y x = option_map CompOpp (SFcompare x y).
Proof.
  destruct x as [sx|sx| |sx mx ex], y as [sy|sy| |sy my ey]; simpl;
    by_signs sx sy.
  finite_case sx sy mx my ex ey.
Qed.

Lemma SFcompare_opp (x y : spec_float) :
  SFcompare (SFopp x) (SFopp y) = SFcompare y x.
Proof.
  destruct x as [sx|sx| |sx mx ex], y as [sy|sy| |sy my ey]; simpl;
    by_signs sx sy.
  finite_case sx sy mx my ex ey.
Qed.

Lemma SFcompare_nan_l (x y : spec_float) :
  SFcompare x y = None -> SFeqb x x = false \/ SFeqb y y = false.
Proof.
  unfold SFeqb.
  destruct x as [sx|sx| |sx mx ex], y as [sy|sy| |sy my ey]; simpl;
    intros H; try discriminate; auto.
Qed.

Lemma lt_asym (x y : float) : lt x y = true -> lt y x = false.
Proof.
  unfold lt. rewrite !ltb_spec. unfold SFltb.
  rewrite (SFcompare_antisym (Prim2SF x) (Prim2SF y)).
  destruct (SFcompare (Prim2SF x) (Prim2SF y)) as [[]|]; simpl; congruence.
Qed.

Lemma lt_irrefl (x : float) : lt x x = false.
Proof.
  destruct (lt x x) eqn:E; [|reflexivity].
  pose proof (lt_asym _ _ E). congruence.
Qed.

Lemma lt_opp (x y : float) :
  lt (PrimFloat.opp x) (PrimFloat.opp y) = lt y x.
Proof.
  unfold lt. rewrite !ltb_spec, !opp_spec. unfold SFltb.
  now rewrite SFcompare_opp.
Qed.

(** On numbers (no NaN), "not below" is "at or above". *)
Lemma not_lt_le (x y : float) :
  is_nan x = false -> is_nan y = false ->
  lt x y = false <-> le y x = true.
Proof.
  unfold lt, le, is_nan. rewrite ltb_spec, leb_spec, !FloatAxioms.eqb_spec.
  unfold SFltb, SFleb. intros Hx Hy.
  apply negb_false_iff in Hx, Hy.
  rewrite (SFcompare_antisym (Prim2SF x) (Prim2SF y)).
  destruct (SFcompare (Prim2SF x) (Prim2SF y)) as [[]|] eqn:E; simpl;
    try (split; congruence).
  apply SFcompare_nan_l in E. destruct E; congruence.
Qed.

Lemma lt_le_incl (x y : float) : lt x y = true -> le x y = true.
Proof.
  unfold lt, le. rewrite ltb_spec, leb_spec. unfold SFltb, SFleb.
  destruct (SFcompare (Prim2SF x) (Prim2SF y)) as [[]|]; congruence.
Qed.

Lemma lt_not_nan (x y : float) :
  lt x y = true -> is_nan x = false /\ is_nan y = false.
Proof.
  unfold lt, is_nan. rewrite ltb_spec, !FloatAxioms.eqb_spec. unfold SFltb, SFeqb.
  destruct (Prim2SF x) as [sx|sx| |sx mx ex], (Prim2SF y) as [sy|sy| |sy my ey];
    simpl; try discriminate; intros _;
    rewrite ?Z.compare_refl; try (destruct sx); try (destruct sy);
    simpl; rewrite ?Z.compare_refl, ?Pos.compare_cont_refl; auto.
Qed.

Lemma is_nan_spec (x : float) : is_nan x = true <-> Prim2SF x = S754_nan.
Proof.
  unfold is_nan. rewrite FloatAxioms.eqb_spec. unfold SFeqb.
  destruct (Prim2SF x) as [sx|sx| |sx mx ex]; simpl;
    try (destruct sx); simpl;
    rewrite ?Z.compare_refl, ?Pos.compare_cont_refl; simpl;
    split; congruence.
Qed.

Lemma not_nan_spec (x : float) : is_nan x = false <-> Prim2SF x <> S754_nan.
Proof.
  rewrite <- is_nan_spec. destruct (is_nan x); split; congruence.
Qed.

Lemma abs_not_nan (x : float) : is_nan (PrimFloat.abs x) = false -> is_nan x = false.
Proof.
  rewrite !not_nan_spec, abs_spec. intros H E. apply H. now rewrite E.
Qed.

Lemma sub_not_nan (x y : float) :
  is_nan (PrimFloat.sub x y) = false -> is_nan x = false /\ is_nan y = false.
Proof.
  rewrite !not_nan_spec, sub_spec. unfold SF64sub. intros H.
  split; intros E; apply H; rewrite E; [reflexivity|].
  destruct (Prim2SF x); reflexivity.
Qed.

(** A delta below a threshold was computed from two numbers. *)
Lemma delta_lt_not_nan (x y t : float) :
  lt (PrimFloat.abs (PrimFloat.sub x y)) t = true ->
  is_nan x = false /\ is_nan y = false.
Proof.
  intros H. apply lt_not_nan in H as [H _].
  now apply sub_not_nan, abs_not_nan.
Qed.

Lemma le_refl (x : float) : is_nan x = false -> le x x = true.
Proof. intros H. apply not_lt_le; auto using lt_irrefl. Qed.

End Float64Facts.

(** ** [sorted] *)

Lemma length_insert_sorted {A} (key : A -> float) (x : A) (l : list A) :
  length (insert_sorted key x l) = S (length l).
Proof.
  induction l as [|y l IH]; simpl; [reflexivity|].
  destruct (Float64.lt (key y) (key x)); simpl; congruence.
Qed.

Lemma length_sorted {A} (key : A -> float) (l : list A) :
  length (sorted key l) = length l.
Proof.
  induction l as [|x l IH]; simpl; [reflexivity|].
  fold (sorted key l). now rewrite length_insert_sorted, IH.
Qed.

Lemma in_insert_sorted {A} (key : A -> float) (x y : A) (l : list A) :
  In y (insert_sorted key x l) <-> y = x \/ In y l.
Proof.
  induction l as [|z l IH]; simpl; [intuition congruence|].
  destruct (Float64.lt (key z) (key x)); simpl; rewrite ?IH; intuition congruence.
Qed.

Lemma in_sorted {A} (key : A -> float) (y : A) (l : list A) :
  In y (sorted key l) <-> In y l.
Proof.
  induction l as [|x l IH]; simpl; [reflexivity|].
  fold (sorted key l). rewrite in_insert_sorted, IH. intuition congruence.
Qed.

Lemma sorted_nil_inv {A} (key : A -> float) (l : list A) :
  sorted key l = [] -> l = [].
Proof.
  intros H. apply (f_equal length) in H. rewrite length_sorted in H.
  now destruct l.
Qed.

Lemma sorted_two {A} (key : A -> float) (a b : A) :
  sorted key [a; b] = if Float64.lt (key b) (key a) then [b; a] else [a; b].
Proof. reflexivity. Qed.

(** The head of a sorted list of at most two entries has a key that no
    entry's key is below. *)
Lemma sorted_head_minimal {A} (key : A -> float) (l : list A) :
  (length l <= 2)%nat -> l <> [] ->
  exists r, getitem (sorted key l) 0 = inr r /\ In r l /\
            forall c, In c l -> Float64.lt (key c) (key r) = false.
Proof.
  destruct l as [|a [|b [|c l]]]; simpl length; intros Hlen Hne;
    try congruence; try lia.
  - exists a. repeat split; simpl; auto.
    intros c [<-|[]]. apply Float64Facts.lt_irrefl.
  - rewrite sorted_two.
    destruct (Float64.lt (key b) (key a)) eqn:E.
    + exists b. repeat split; simpl; auto.
      intros c [<-|[<-|[]]];
        auto using Float64Facts.lt_asym, Float64Facts.lt_irrefl.
    + exists a. repeat split; simpl; auto.
      intros c [<-|[<-|[]]]; auto using Float64Facts.lt_irrefl.
Qed.

(** ** [select_region] *)

Lemma in_take {A} (n : nat) (x : A) (l : list A) : In x (take n l) -> In x l.
Proof.
  revert n; induction l as [|y l IH]; intros [|n]; simpl; try tauto.
  intros [->|H]; eauto.
Qed.

Lemma in_top_two (regions : list region) (r : region) :
  In r (top_two regions) -> In r regions /\ large_and_round r = true.
Proof.
  unfold top_two. intros H. apply in_take, in_sorted in H.
  now apply List.filter_In in H.
Qed.

Lemma length_top_two (regions : list region) :
  (length (top_two regions) <= 2)%nat.
Proof. unfold top_two. rewrite length_take. lia. Qed.

Lemma top_two_nil (regions : list region) :
  top_two regions = [] <-> List.filter large_and_round regions = [].
Proof.
  unfold top_two. split; [|now intros ->].
  intros H. apply (sorted_nil_inv (fun x => PrimFloat.opp (mean_intensity x))).
  destruct (sorted _ _) as [|? [|? ?]]; simpl in H; congruence.
Qed.

Lemma select_region_none (regions : list region) (height : Z) :
  List.filter large_and_round regions = [] ->
  select_region regions height =
    inl (ValueError [AStr "bad threshold";
                     APairs (map (fun r => (area r, eccentricity r)) regions)]).
Proof. unfold select_region. now intros ->. Qed.

Lemma select_region_some (regions : list region) (height : Z) :
  List.filter large_and_round regions <> [] ->
  select_region regions height =
    if two_regions_close (top_two regions) then
      getitem (sorted (fun x => PrimFloat.opp (snd (centroid x)))
                      (top_two regions)) 0
    else getitem (sorted (bottom_left_distance height) (top_two regions)) 0.
Proof.
  unfold select_region, top_two. intros H.
  destruct (List.filter large_and_round regions); [congruence|reflexivity].
Qed.

Lemma select_region_returns (regions : list region) (height : Z) :
  List.filter large_and_round regions <> [] ->
  exists r, select_region regions height = inr r /\ In r (top_two regions).
Proof.
  intros H. rewrite select_region_some by assumption.
  assert (Hne : top_two regions <> []) by now rewrite top_two_nil.
  pose proof (length_top_two regions) as Hlen.
  destruct (two_regions_close (top_two regions)).
  - destruct (sorted_head_minimal (fun x => PrimFloat.opp (snd (centroid x)))
                _ Hlen Hne) as (r & -> & Hin & _); eauto.
  - destruct (sorted_head_minimal (bottom_left_distance height)
                _ Hlen Hne) as (r & -> & Hin & _); eauto.
Qed.

(** [select_region] raises nothing but the "bad threshold" error. *)
Lemma select_region_cases (regions : list region) (height : Z) :
  (List.filter large_and_round regions = [] /\
   select_region regions height =
     inl (ValueError [AStr "bad threshold";
                      APairs (map (fun r => (area r, eccentricity r)) regions)]))
  \/ (exists r, select_region regions height = inr r /\ In r (top_two regions)).
Proof.
  destruct (List.filter large_and_round regions) eqn:E.
  - left. split; [reflexivity|]. now apply select_region_none.
  - right. apply select_region_returns. congruence.
Qed.

(** The key of the last sort, written out: the square root of the sum of
    the squares of [height - row] and [0 - column]. *)
Lemma bottom_left_distance_formula (height : Z) (x : region) :
  bottom_left_distance height x =
    PrimFloat.sqrt
      (PrimFloat.add
         (PrimFloat.mul (PrimFloat.sub (Float64.of_Z height) (fst (centroid x)))
                        (PrimFloat.sub (Float64.of_Z height) (fst (centroid x))))
         (PrimFloat.mul (PrimFloat.sub 0 (snd (centroid x)))
                        (PrimFloat.sub 0 (snd (centroid x))))).
Proof.
  unfold bottom_left_distance, norm. cbn [fst snd].
  replace (Float64.of_Z 0) with 0%float by (vm_compute; reflexivity).
  reflexivity.
Qed.

(** ** The selector on the descriptors of one image *)

Section Selector.

Variable lib : library.


(** C4. Let the survivors of the filter be two at most, or their mean
    intensities be numbers. When the two brightest survivors [a], [b] are
    close (column centroids less than 25 apart and row centroids less than 15
    apart), [find_target_region] returns the one with the larger column
    centroid: [b] when [a]'s column is below [b]'s, else [a]; no column
    centroid of the two exceeds the returned one's. *)
Theorem find_target_region_close_picks_rightmost
    (region_label : label_map) (image : image) (a b : region) :
  (length (List.filter large_and_round (regionprops lib region_label image))
   <= 2)%nat
  \/ Forall (fun x => is_nan (mean_intensity x) = false)
            (List.filter large_and_round (regionprops lib region_label image)) ->
  top_two (regionprops lib region_label image) = [a; b] ->
  Float64.lt (PrimFloat.abs (PrimFloat.sub (snd (centroid a)) (snd (centroid b))))
             WIDTH_DELTA_THRESHOLD = true ->
  Float64.lt (PrimFloat.abs (PrimFloat.sub (fst (centroid a)) (fst (centroid b))))
             HEIGHT_DELTA_THRESHOLD = true ->
  exists r,
    find_target_region lib region_label image = inr r
    /\ r = (if Float64.lt (snd (centroid a)) (snd (centroid b)) then b else a)
    /\ Float64.le (snd (centroid a)) (snd (centroid r)) = true
    /\ Float64.le (snd (centroid b)) (snd (centroid r)) = true.
Proof.
  intros _ Htop Hw Hh. unfold find_target_region.
  assert (Hne : List.filter large_and_round (regionprops lib region_label image) <> []).
  { intros E. apply top_two_nil in E. congruence. }
  rewrite select_region_some, Htop by assumption.
  unfold two_regions_close. rewrite Hw, Hh. simpl andb. cbv iota.
  rewrite sorted_two, Float64Facts.lt_opp.
  destruct (Float64Facts.delta_lt_not_nan _ _ _ Hw) as [Ha Hb].
  destruct (Float64.lt (snd (centroid a)) (snd (centroid b))) eqn:E.
  - exists b. repeat split; auto using Float64Facts.lt_le_incl, Float64Facts.le_refl.
  - exists a. repeat split; auto using Float64Facts.le_refl.
    now apply Float64Facts.not_lt_le.
Qed.

(** C5. Let the survivors of the filter be two at most, or their mean
    intensities be numbers. When the brightest survivors (at most two) are
    not close, [find_target_region] returns the one among them nearest to the
    bottom-left corner, the point (number of image rows, 0). The distance of a
    region with centroid (row, column) is the square root of
    (rows - row)^2 + (0 - column)^2 in binary64 arithmetic: none of the
    brightest survivors is at a smaller distance than the returned one, and
    the returned distance is at most every other one whenever both are
    numbers. *)
Theorem find_target_region_far_picks_bottom_left
    (region_label : label_map) (image : image) :
  (length (List.filter large_and_round (regionprops lib region_label image))
   <= 2)%nat
  \/ Forall (fun x => is_nan (mean_intensity x) = false)
            (List.filter large_and_round (regionprops lib region_label image)) ->
  List.filter large_and_round (regionprops lib region_label image) <> [] ->
  two_regions_close (top_two (regionprops lib region_label image)) = false ->
  exists r,
    find_target_region lib region_label image = inr r
    /\ In r (top_two (regionprops lib region_label image))
    /\ let distance := fun x : region =>
         let rows := Float64.of_Z (Z.of_nat (length image)) in
         let down := PrimFloat.sub rows (fst (centroid x)) in
         let left := PrimFloat.sub 0 (snd (centroid x)) in
         PrimFloat.sqrt (PrimFloat.add (PrimFloat.mul down down)
                                       (PrimFloat.mul left left)) in
       (forall c, In c (top_two (regionprops lib region_label image)) ->
          Float64.lt (distance c) (distance r) = false)
       /\ (forall c, In c (top_two (regionprops lib region_label image)) ->
             is_nan (distance c) = false ->
             is_nan (distance r) = false ->
             Float64.le (distance r) (distance c) = true).
Proof.
  intros _ Hne Hfar. unfold find_target_region.
  rewrite select_region_some, Hfar by assumption.
  assert (Hne' : top_two (regionprops lib region_label image) <> [])
    by now rewrite top_two_nil.
  destruct (sorted_head_minimal (bottom_left_distance (shape0 image)) _
              (length_top_two _) Hne') as (r & Hr & Hin & Hmin).
  exists r. split; [assumption|]. split; [assumption|].
  cbv zeta.
  assert (Hlt : forall c,
            In c (top_two (regionprops lib region_label image)) ->
            Float64.lt (bottom_left_distance (shape0 image) c)
                       (bottom_left_distance (shape0 image) r) = false)
    by auto.
  setoid_rewrite bottom_left_distance_formula in Hlt. unfold shape0 in Hlt.
  split; [exact Hlt|].
  intros c Hc Hnc Hnr. apply Float64Facts.not_lt_le; auto.
Qed.

(** C6. When exactly one descriptor has area at least 30 and eccentricity
    below 0.98, the proximity test on the lone survivor is false and
    [find_target_region] returns that descriptor. *)
Theorem find_target_region_single_candidate
    (region_label : label_map) (image : image) (r : region) :
  List.filter large_and_round (regionprops lib region_label image) = [r] ->
  two_regions_close (top_two (regionprops lib region_label image)) = false
  /\ find_target_region lib region_label image = inr r.
Proof.
  intros H. unfold find_target_region, select_region, top_two.
  rewrite H. split; reflexivity.
Qed.

End Selector.

(** C7. [extract_vocab] returns the ten attributes of the region in the
    order area, eccentricity, equivalent_diameter, extent,
    major_axis_length, minor_axis_length, perimeter, max_intensity,
    mean_intensity, min_intensity (the integer area stored as a float). *)
Theorem extract_vocab_field_order (r : region) :
  extract_vocab r =
    inr [Float64.of_Z (area r); eccentricity r; equivalent_diameter r;
         extent r; major_axis_length r; minor_axis_length r; perimeter r;
         max_intensity r; mean_intensity r; min_intensity r].
Proof. unfold extract_vocab, range, fields. reflexivity. Qed.

(** ** The two loops *)

Lemma reports_nil (g : globals) (stage : string) : reports g stage [] = g.
Proof. destruct g. unfold reports. simpl. now rewrite !app_nil_r. Qed.

Lemma reports_report (g : globals) (i : nat) (args : list arg)
    (stage : string) (rs : list (nat * list arg)) :
  reports (report g i args stage) stage rs = reports g stage ((i, args) :: rs).
Proof. unfold reports, report. simpl. now rewrite <- !app_assoc. Qed.

Lemma reports_app (g : globals) (stage : string)
    (rs rs' : list (nat * list arg)) :
  reports (reports g stage rs) stage rs' = reports g stage (rs ++ rs').
Proof. unfold reports. simpl. now rewrite map_app, <- !app_assoc. Qed.

Lemma for_range_cons {S} (body : nat -> S -> exn + S) (i : nat)
    (l : list nat) (s : S) :
  for_range body (i :: l) s = (s' <- body i s ;; for_range body l s').
Proof. reflexivity. Qed.

Lemma getitem_lookup {A} (l : list A) (i : nat) (x : A) :
  l !! i = Some x -> getitem l i = inr x.
Proof. unfold getitem. now intros ->. Qed.

Lemma setitem_lt {A} (l : list A) (i : nat) (x : A) :
  (i < length l)%nat -> setitem l i x = inr (<[i:=x]> l).
Proof.
  unfold setitem. intros H. apply Nat.ltb_lt in H. now rewrite H.
Qed.

Lemma in_range (n i : nat) : In i (range n) <-> (i < n)%nat.
Proof. unfold range. rewrite in_seq. lia. Qed.

Section Loops.

Variable lib : library.

(** [extract_region_label] raises nothing but its own [ValueError]. *)
Lemma extract_region_label_cases (image : image) :
  (threshold_otsu lib image = None /\
   extract_region_label lib image =
     inl (ValueError (otsu_error_args lib image)))
  \/ (exists thresh region_label,
        threshold_otsu lib image = Some thresh /\
        extract_region_label lib image = inr region_label).
Proof.
  unfold extract_region_label.
  destruct (threshold_otsu lib image); [right|left]; eauto.
Qed.

Lemma length_store_label (images : list image) (i : nat)
    (region_labels : list label_map) :
  length (store_label lib images region_labels i) = length region_labels.
Proof.
  unfold store_label. destruct (images !! i) as [img|]; [|reflexivity].
  destruct (extract_region_label lib img); [reflexivity|apply length_insert].
Qed.

Lemma length_foldl_store_label (images : list image) (l : list nat)
    (region_labels : list label_map) :
  length (foldl (store_label lib images) region_labels l) = length region_labels.
Proof.
  revert region_labels; induction l as [|i l IH]; intros rl; simpl; [reflexivity|].
  now rewrite IH, length_store_label.
Qed.

(** One turn of the first loop in closed form. *)
Lemma region_labels_turn_eq (images : list image) (i : nat)
    (region_labels : list label_map) (g : globals) :
  (i < length images)%nat -> (i < length region_labels)%nat ->
  region_labels_turn lib images i (region_labels, g) =
    inr (store_label lib images region_labels i,
         reports g "extract_region_label"
                 (option_list (label_failure lib images i))).
Proof.
  intros Hi Hlen.
  destruct (lookup_lt_is_Some_2 images i Hi) as [img Himg].
  unfold region_labels_turn, store_label, label_failure.
  rewrite (getitem_lookup _ _ _ Himg), Himg. simpl bind.
  destruct (extract_region_label_cases img)
    as [[_ ->]|(t & lbl & _ & ->)]; simpl.
  - now rewrite <- reports_report, reports_nil.
  - rewrite setitem_lt by assumption. now rewrite reports_nil.
Qed.

(** The first loop in closed form. *)
Lemma region_labels_loop (images : list image) (l : list nat)
    (region_labels : list label_map) (g : globals) :
  Forall (fun i => (i < length images)%nat) l ->
  length region_labels = length images ->
  for_range (region_labels_turn lib images) l (region_labels, g) =
    inr (foldl (store_label lib images) region_labels l,
         reports g "extract_region_label" (omap (label_failure lib images) l)).
Proof.
  intros Hl. revert region_labels g.
  induction Hl as [|i l Hi Hl IH]; intros rl g Hlen.
  - simpl. now rewrite reports_nil.
  - rewrite for_range_cons, region_labels_turn_eq by lia.
    simpl bind. rewrite IH.
    2:{ now rewrite length_store_label. }
    simpl. destruct (label_failure lib images i) as [[k args]|]; simpl.
    + now rewrite reports_app.
    + now rewrite reports_nil.
Qed.

(** A slot of [region_labels] after one turn of the first loop. *)
Lemma lookup_store_label (images : list image) (i j : nat)
    (region_labels : list label_map) (image : image) :
  images !! j = Some image -> (j < length region_labels)%nat ->
  store_label lib images region_labels i !! j =
    if decide (i = j) then
      match extract_region_label lib image with
      | inr region_label => Some region_label
      | inl _ => region_labels !! j
      end
    else region_labels !! j.
Proof.
  intros Himg Hj. unfold store_label.
  destruct (decide (i = j)) as [->|Hne].
  - rewrite Himg. destruct (extract_region_label lib image); [reflexivity|].
    now apply list_lookup_insert_eq.
  - destruct (images !! i) as [img'|]; [|reflexivity].
    destruct (extract_region_label lib img'); [reflexivity|].
    now apply list_lookup_insert_ne.
Qed.

(** A slot whose image fails thresholding is never written. *)
Lemma lookup_foldl_store_label_failed (images : list image) (l : list nat)
    (region_labels : list label_map) (j : nat) (image : image) (e : exn) :
  images !! j = Some image -> (j < length region_labels)%nat ->
  extract_region_label lib image = inl e ->
  foldl (store_label lib images) region_labels l !! j = region_labels !! j.
Proof.
  intros Himg Hj He. revert region_labels Hj.
  induction l as [|i l IH]; intros rl Hj; simpl; [reflexivity|].
  rewrite IH by now rewrite length_store_label.
  rewrite (lookup_store_label images i j rl image) by assumption.
  rewrite He. now destruct (decide (i = j)).
Qed.

(** A slot holding the label array of its image keeps it. *)
Lemma lookup_foldl_store_label_kept (images : list image) (l : list nat)
    (region_labels : list label_map) (j : nat) (image : image)
    (region_label : label_map) :
  images !! j = Some image ->
  extract_region_label lib image = inr region_label ->
  region_labels !! j = Some region_label ->
  foldl (store_label lib images) region_labels l !! j = Some region_label.
Proof.
  intros Himg Hok. revert region_labels.
  induction l as [|i l IH]; intros rl Hj; simpl; [assumption|].
  apply IH.
  rewrite (lookup_store_label images i j rl image); auto.
  - rewrite Hok. now destruct (decide (i = j)).
  - now apply lookup_lt_Some in Hj.
Qed.

(** A slot the loop went over holds the label array of its image. *)
Lemma lookup_foldl_store_label_labelled (images : list image) (l : list nat)
    (region_labels : list label_map) (j : nat) (image : image)
    (region_label : label_map) :
  images !! j = Some image -> (j < length region_labels)%nat ->
  extract_region_label lib image = inr region_label ->
  In j l ->
  foldl (store_label lib images) region_labels l !! j = Some region_label.
Proof.
  intros Himg Hj Hok. revert region_labels Hj.
  induction l as [|i l IH]; intros rl Hj Hin; simpl; [destruct Hin|].
  destruct (decide (i = j)) as [->|Hne].
  - apply (lookup_foldl_store_label_kept images l _ j image); auto.
    rewrite (lookup_store_label images j j rl image) by assumption.
    rewrite Hok. now destruct (decide (j = j)).
  - apply IH; [now rewrite length_store_label|].
    destruct Hin; [congruence|assumption].
Qed.

(** The slots as the second loop reads them. *)
Lemma lookup_final_region_labels (images : list image)
    (uninitialized : nat -> label_map) (j : nat) (image : image) :
  images !! j = Some image ->
  final_region_labels lib images uninitialized !! j =
    Some (match extract_region_label lib image with
          | inr region_label => region_label
          | inl _ => uninitialized j
          end).
Proof.
  intros Himg. unfold final_region_labels.
  assert (Hj : (j < length images)%nat) by now apply lookup_lt_Some in Himg.
  assert (Hlen : length (np_empty uninitialized (length images)) = length images).
  { unfold np_empty, range. now rewrite length_map, length_seq. }
  destruct (extract_region_label lib image) as [e|lbl] eqn:E.
  - rewrite (lookup_foldl_store_label_failed images _ _ j image e); auto; [|lia].
    unfold np_empty, range. rewrite list_lookup_fmap, lookup_seq_lt by assumption.
    reflexivity.
  - apply (lookup_foldl_store_label_labelled images _ _ j image); auto; [lia|].
    now apply in_range.
Qed.

Lemma length_final_region_labels (images : list image)
    (uninitialized : nat -> label_map) :
  length (final_region_labels lib images uninitialized) = length images.
Proof.
  unfold final_region_labels. rewrite length_foldl_store_label.
  unfold np_empty, range. now rewrite length_map, length_seq.
Qed.

End Loops.

(** ** Columns of the matrix *)

Lemma has_shape_np_zeros (rows cols : nat) : has_shape (np_zeros rows cols) rows cols.
Proof.
  unfold has_shape, np_zeros. split; [apply length_replicate|].
  apply Forall_forall. intros row Hrow.
  apply elem_of_replicate in Hrow as [-> _]. apply length_replicate.
Qed.

Lemma has_shape_zip_insert (m : list (list float)) (rows cols i : nat)
    (v : list float) :
  has_shape m rows cols -> length v = rows ->
  has_shape (zip_with (fun row x => <[i:=x]> row) m v) rows cols.
Proof.
  unfold has_shape. intros [Hlen Hrows] Hv. subst rows. split.
  - rewrite length_zip_with. lia.
  - clear Hv. revert v. induction Hrows as [|row m Hrow Hrows IH];
      intros [|x v]; simpl; constructor.
    + now rewrite length_insert.
    + apply IH.
Qed.

Lemma set_column_shape (m : list (list float)) (rows cols i : nat)
    (v : list float) :
  has_shape m rows cols -> (i < cols)%nat -> length v = rows ->
  set_column m i v = inr (zip_with (fun row x => <[i:=x]> row) m v).
Proof.
  unfold has_shape, set_column. intros [Hlen Hrows] Hi Hv.
  rewrite Hv, Hlen, Nat.eqb_refl. simpl.
  assert (H : forallb (fun row : list float => (i <? length row)%nat) m = true).
  { apply forallb_forall. intros row Hin.
    rewrite Forall_forall in Hrows. apply list_elem_of_In in Hin.
    rewrite (Hrows row Hin). now apply Nat.ltb_lt. }
  now rewrite H.
Qed.

Lemma mcolumn_np_zeros (rows cols j : nat) :
  (j < cols)%nat -> mcolumn (np_zeros rows cols) j = Some (replicate rows 0%float).
Proof.
  intros Hj. unfold mcolumn, np_zeros.
  induction rows as [|rows IH]; simpl; [reflexivity|].
  rewrite lookup_replicate_2 by assumption. simpl.
  now rewrite IH.
Qed.

Lemma mcolumn_zip_insert_eq (m : list (list float)) (i : nat) (v : list float) :
  length v = length m -> Forall (fun row => (i < length row)%nat) m ->
  mcolumn (zip_with (fun row x => <[i:=x]> row) m v) i = Some v.
Proof.
  unfold mcolumn. intros Hlen Hrows. revert v Hlen.
  induction Hrows as [|row m Hrow Hrows IH]; intros [|x v] Hlen;
    simpl in *; try discriminate; [reflexivity|].
  rewrite list_lookup_insert_eq by assumption. simpl.
  rewrite IH by lia. reflexivity.
Qed.

Lemma mcolumn_zip_insert_ne (m : list (list float)) (i j : nat)
    (v : list float) :
  length v = length m -> i <> j ->
  mcolumn (zip_with (fun row x => <[i:=x]> row) m v) j = mcolumn m j.
Proof.
  unfold mcolumn. intros Hlen Hne. revert v Hlen.
  induction m as [|row m IH]; intros [|x v] Hlen;
    simpl in *; try discriminate; [reflexivity|].
  rewrite list_lookup_insert_ne by assumption.
  rewrite IH by lia. reflexivity.
Qed.

Lemma has_shape_lt (m : list (list float)) (rows cols i : nat) :
  has_shape m rows cols -> (i < cols)%nat ->
  Forall (fun row => (i < length row)%nat) m.
Proof.
  intros [_ Hrows] Hi. eapply Forall_impl; [exact Hrows|].
  simpl. intros row ->. exact Hi.
Qed.

Create HintDb shape.
#[local] Hint Resolve has_shape_np_zeros has_shape_zip_insert : shape.

Lemma extract_vocab_length (r : region) :
  exists vocab, extract_vocab r = inr vocab /\ length vocab = 10%nat.
Proof. eexists. split; reflexivity. Qed.

Section VocabLoop.

Variable lib : library.

(** [find_target_region] raises nothing but the "bad threshold" error. *)
Lemma find_target_region_cases (region_label : label_map) (image : image) :
  (find_target_region lib region_label image =
     inl (ValueError
            [AStr "bad threshold";
             APairs (map (fun r => (area r, eccentricity r))
                         (regionprops lib region_label image))]))
  \/ (exists r, find_target_region lib region_label image = inr r).
Proof.
  unfold find_target_region.
  destruct (select_region_cases (regionprops lib region_label image)
              (shape0 image)) as [[_ H]|(r & H & _)]; eauto.
Qed.

(** The [try] block of the second loop yields ten numbers or a
    [ValueError]. *)
Lemma vocab_of_cases (region_labels : list label_map) (images : list image)
    (i : nat) :
  (i < length region_labels)%nat -> (i < length images)%nat ->
  (exists args, vocab_of lib region_labels images i = inl (ValueError args))
  \/ (exists vocab, vocab_of lib region_labels images i = inr vocab /\
                    length vocab = 10%nat).
Proof.
  intros Hl Hi. unfold vocab_of.
  destruct (lookup_lt_is_Some_2 _ _ Hl) as [lbl Hlbl].
  destruct (lookup_lt_is_Some_2 _ _ Hi) as [img Himg].
  rewrite (getitem_lookup _ _ _ Hlbl), (getitem_lookup _ _ _ Himg). simpl bind.
  destruct (find_target_region_cases lbl img) as [->|[r ->]]; simpl bind.
  - left. eauto.
  - right. apply extract_vocab_length.
Qed.

Lemma vocab_of_length (region_labels : list label_map) (images : list image)
    (i : nat) (vocab : list float) :
  vocab_of lib region_labels images i = inr vocab -> length vocab = 10%nat.
Proof.
  unfold vocab_of, getitem.
  destruct (region_labels !! i); [|discriminate].
  destruct (images !! i); [|discriminate]. simpl bind.
  destruct (find_target_region lib l i0) as [e|r]; [discriminate|]. simpl bind.
  destruct (extract_vocab_length r) as (v & -> & Hv). congruence.
Qed.

Lemma has_shape_store_vocab (region_labels : list label_map)
    (images : list image) (m : list (list float)) (cols i : nat) :
  has_shape m 10 cols ->
  has_shape (store_vocab lib region_labels images m i) 10 cols.
Proof.
  intros Hm. unfold store_vocab.
  destruct (vocab_of lib region_labels images i) as [e|v] eqn:E; [assumption|].
  apply vocab_of_length in E. auto with shape.
Qed.

#[local] Hint Resolve has_shape_store_vocab : shape.

(** One turn of the second loop in closed form. *)
Lemma vocab_turn_eq (region_labels : list label_map) (images : list image)
    (i : nat) (m : list (list float)) (g : globals) :
  (i < length region_labels)%nat -> (i < length images)%nat ->
  has_shape m 10 (length images) ->
  vocab_turn lib region_labels images i (m, g) =
    inr (store_vocab lib region_labels images m i,
         reports g "find_target_region"
                 (option_list (vocab_failure lib region_labels images i))).
Proof.
  intros Hl Hi Hm.
  pose proof (vocab_of_cases region_labels images i Hl Hi) as Hcases.
  unfold store_vocab, vocab_failure. revert Hcases.
  unfold vocab_turn, vocab_of.
  destruct (lookup_lt_is_Some_2 _ _ Hl) as [lbl Hlbl].
  destruct (lookup_lt_is_Some_2 _ _ Hi) as [img Himg].
  rewrite (getitem_lookup _ _ _ Hlbl), (getitem_lookup _ _ _ Himg). cbn [bind].
  destruct (find_target_region lib lbl img) as [e|r]; cbn [bind].
  - intros [[args [= ->]]|(v & [=] & _)]. simpl.
    now rewrite <- reports_report, reports_nil.
  - destruct (extract_vocab r) as [e|v]; cbn [bind].
    + intros [[args [= ->]]|(v & [=] & _)]. simpl.
      now rewrite <- reports_report, reports_nil.
    + intros [[args [=]]|(v' & [= <-] & Hv)].
      rewrite (set_column_shape m 10 (length images)) by assumption.
      simpl. now rewrite reports_nil.
Qed.

(** The second loop in closed form. *)
Lemma vocab_loop (region_labels : list label_map) (images : list image)
    (l : list nat) (m : list (list float)) (g : globals) :
  Forall (fun i => (i < length images)%nat) l ->
  length region_labels = length images ->
  has_shape m 10 (length images) ->
  for_range (vocab_turn lib region_labels images) l (m, g) =
    inr (foldl (store_vocab lib region_labels images) m l,
         reports g "find_target_region"
                 (omap (vocab_failure lib region_labels images) l)).
Proof.
  intros Hl Hlen. revert m g.
  induction Hl as [|i l Hi Hl IH]; intros m g Hm.
  - simpl. now rewrite reports_nil.
  - rewrite for_range_cons, vocab_turn_eq by (assumption || lia).
    simpl bind. rewrite IH by auto with shape.
    simpl. destruct (vocab_failure lib region_labels images i) as [[k args]|]; simpl.
    + now rewrite reports_app.
    + now rewrite reports_nil.
Qed.

Lemma has_shape_foldl_store_vocab (region_labels : list label_map)
    (images : list image) (l : list nat) (m : list (list float)) (cols : nat) :
  has_shape m 10 cols ->
  has_shape (foldl (store_vocab lib region_labels images) m l) 10 cols.
Proof.
  revert m. induction l as [|i l IH]; intros m Hm; simpl; [assumption|].
  apply IH. auto with shape.
Qed.

(** A column after one turn of the second loop. *)
Lemma mcolumn_store_vocab (region_labels : list label_map)
    (images : list image) (m : list (list float)) (cols i j : nat) :
  has_shape m 10 cols -> (j < cols)%nat ->
  mcolumn (store_vocab lib region_labels images m i) j =
    if decide (i = j) then
      match vocab_of lib region_labels images j with
      | inr vocab => Some vocab
      | inl _ => mcolumn m j
      end
    else mcolumn m j.
Proof.
  intros Hm Hj. unfold store_vocab.
  destruct (decide (i = j)) as [->|Hne].
  - destruct (vocab_of lib region_labels images j) as [e|v] eqn:E; [reflexivity|].
    apply mcolumn_zip_insert_eq.
    + apply vocab_of_length in E. destruct Hm. congruence.
    + eapply has_shape_lt; eassumption.
  - destruct (vocab_of lib region_labels images i) as [e|v] eqn:E; [reflexivity|].
    apply mcolumn_zip_insert_ne; [|assumption].
    apply vocab_of_length in E. destruct Hm. congruence.
Qed.

(** The column of an index whose [try] block raises is never written. *)
Lemma mcolumn_foldl_failed (region_labels : list label_map)
    (images : list image) (l : list nat) (m : list (list float))
    (cols j : nat) (e : exn) :
  has_shape m 10 cols -> (j < cols)%nat ->
  vocab_of lib region_labels images j = inl e ->
  mcolumn (foldl (store_vocab lib region_labels images) m l) j = mcolumn m j.
Proof.
  intros Hm Hj He. revert m Hm.
  induction l as [|i l IH]; intros m Hm; simpl; [reflexivity|].
  rewrite IH by auto with shape.
  rewrite (mcolumn_store_vocab _ _ m cols) by assumption.
  rewrite He. now destruct (decide (i = j)).
Qed.

Lemma mcolumn_foldl_kept (region_labels : list label_map)
    (images : list image) (l : list nat) (m : list (list float))
    (cols j : nat) (vocab : list float) :
  has_shape m 10 cols -> (j < cols)%nat ->
  vocab_of lib region_labels images j = inr vocab ->
  mcolumn m j = Some vocab ->
  mcolumn (foldl (store_vocab lib region_labels images) m l) j = Some vocab.
Proof.
  intros Hm Hj Hok. revert m Hm.
  induction l as [|i l IH]; intros m Hm Hcol; simpl; [assumption|].
  apply IH; [auto with shape|].
  rewrite (mcolumn_store_vocab _ _ m cols) by assumption.
  rewrite Hok. now destruct (decide (i = j)).
Qed.

(** The column of an index the loop went over holds its vector. *)
Lemma mcolumn_foldl_stored (region_labels : list label_map)
    (images : list image) (l : list nat) (m : list (list float))
    (cols j : nat) (vocab : list float) :
  has_shape m 10 cols -> (j < cols)%nat ->
  vocab_of lib region_labels images j = inr vocab ->
  In j l ->
  mcolumn (foldl (store_vocab lib region_labels images) m l) j = Some vocab.
Proof.
  intros Hm Hj Hok. revert m Hm.
  induction l as [|i l IH]; intros m Hm Hin; simpl; [destruct Hin|].
  destruct (decide (i = j)) as [->|Hne].
  - apply (mcolumn_foldl_kept _ _ l _ cols); auto.
    + auto with shape.
    + rewrite (mcolumn_store_vocab _ _ m cols) by assumption.
      rewrite Hok. now destruct (decide (j = j)).
  - apply IH; [auto with shape|].
    destruct Hin; [congruence|assumption].
Qed.

(** The notebook never stops on an exception: its result in closed form. *)
Lemma run_notebook_eq (images : list image) (uninitialized : nat -> label_map) :
  run_notebook lib images uninitialized =
    inr (foldl (store_vocab lib (final_region_labels lib images uninitialized)
                            images)
               (np_zeros 10 (length images)) (range (length images)),
         reports
           (reports {| failed_indexes := []; printed := [] |}
                    "extract_region_label"
                    (omap (label_failure lib images) (range (length images))))
           "find_target_region"
           (omap (vocab_failure lib
                    (final_region_labels lib images uninitialized) images)
                 (range (length images)))).
Proof.
  assert (Hrange : Forall (fun i => (i < length images)%nat)
                          (range (length images))).
  { apply Forall_forall. intros i Hi. apply list_elem_of_In, in_range in Hi.
    exact Hi. }
  unfold run_notebook, extract_region_labels_from_images,
    extract_vocab_from_region_labels.
  rewrite region_labels_loop; auto.
  2:{ unfold np_empty, range. now rewrite length_map, length_seq. }
  simpl bind. fold (final_region_labels lib images uninitialized).
  rewrite vocab_loop; auto using has_shape_np_zeros.
  apply length_final_region_labels.
Qed.

End VocabLoop.

(** ** Reading the failure list *)

Lemma in_reports (g : globals) (stage : string) (rs : list (nat * list arg))
    (i : nat) (args : list arg) :
  In (i, args) rs -> In (i, stage) (failed_indexes (reports g stage rs)).
Proof.
  intros H. unfold reports. simpl. apply in_or_app. right.
  apply in_map_iff. exists (i, args). auto.
Qed.

Lemma in_reports_earlier (g : globals) (stage : string)
    (rs : list (nat * list arg)) (x : nat * string) :
  In x (failed_indexes g) -> In x (failed_indexes (reports g stage rs)).
Proof. intros H. unfold reports. simpl. apply in_or_app. now left. Qed.

Lemma in_omap {A B} (f : A -> option B) (l : list A) (a : A) (b : B) :
  In a l -> f a = Some b -> In b (omap f l).
Proof.
  intros Hin Hf. apply list_elem_of_In, list_elem_of_omap.
  exists a. split; [now apply list_elem_of_In|assumption].
Qed.

(** The indices a filter keeps from a range come in increasing order. *)
Lemma filter_seq_increasing (p : nat -> bool) (a n : nat) :
  StronglySorted lt (List.filter p (seq a n)).
Proof.
  revert a. induction n as [|n IH]; intros a; simpl; [constructor|].
  destruct (p a); [|apply IH].
  constructor; [apply IH|].
  apply Forall_forall. intros k Hk.
  apply list_elem_of_In, List.filter_In in Hk as [Hk _].
  apply in_seq in Hk. lia.
Qed.

Section FailureList.

Variable lib : library.

Lemma label_failure_key (images : list image) (k : nat) (x : nat * list arg) :
  label_failure lib images k = Some x -> fst x = k.
Proof.
  unfold label_failure. destruct (images !! k); [|discriminate].
  destruct (extract_region_label lib i) as [[| |]|]; try discriminate.
  now intros [= <-].
Qed.

Lemma vocab_failure_key (region_labels : list label_map) (images : list image)
    (k : nat) (x : nat * list arg) :
  vocab_failure lib region_labels images k = Some x -> fst x = k.
Proof.
  unfold vocab_failure.
  destruct (vocab_of lib region_labels images k) as [[| |]|]; try discriminate.
  now intros [= <-].
Qed.

Lemma label_failure_threshold_fails (images : list image) (i : nat) :
  match label_failure lib images i with
  | Some x => fst x = i /\ threshold_fails lib images i = true
  | None => threshold_fails lib images i = false
  end.
Proof.
  unfold label_failure, threshold_fails.
  destruct (images !! i) as [img|]; [|reflexivity].
  destruct (extract_region_label_cases lib img)
    as [[-> ->]|(t & lbl & -> & ->)]; simpl; auto.
Qed.

(** The indices the first loop reports are those failing thresholding. *)
Lemma label_failure_indices (images : list image) (l : list nat) :
  map fst (omap (label_failure lib images) l) =
    List.filter (threshold_fails lib images) l.
Proof.
  induction l as [|i l IH]; simpl; [reflexivity|].
  pose proof (label_failure_threshold_fails images i) as H.
  destruct (label_failure lib images i) as [x|].
  - destruct H as [<- ->]. simpl. f_equal. exact IH.
  - rewrite H. exact IH.
Qed.

Lemma vocab_failure_selection_fails (region_labels : list label_map)
    (images : list image) (i : nat) :
  match vocab_failure lib region_labels images i with
  | Some x => fst x = i /\ selection_fails lib region_labels images i = true
  | None => selection_fails lib region_labels images i = false
  end.
Proof.
  unfold vocab_failure, selection_fails, vocab_of, getitem.
  destruct (region_labels !! i) as [lbl|]; [|reflexivity].
  destruct (images !! i) as [img|]; [|reflexivity]. cbn [bind].
  destruct (find_target_region_cases lib lbl img) as [->|[r ->]]; cbn [bind].
  - simpl. auto.
  - now destruct (extract_vocab_length r) as (v & -> & _).
Qed.

(** The indices the second loop reports are those whose selection raised. *)
Lemma vocab_failure_indices (region_labels : list label_map)
    (images : list image) (l : list nat) :
  map fst (omap (vocab_failure lib region_labels images) l) =
    List.filter (selection_fails lib region_labels images) l.
Proof.
  induction l as [|i l IH]; simpl; [reflexivity|].
  pose proof (vocab_failure_selection_fails region_labels images i) as H.
  destruct (vocab_failure lib region_labels images i) as [x|].
  - destruct H as [<- ->]. simpl. f_equal. exact IH.
  - rewrite H. exact IH.
Qed.

Lemma map_tag_fst {B} (stage : string) (rs : list (nat * B)) :
  map (fun r => (fst r, stage)) rs = map (fun i => (i, stage)) (map fst rs).
Proof. now rewrite map_map. Qed.

End FailureList.

(** ** The batch *)

Section Batch.

Variable lib : library.

(** C1 (the code departs from it). An image that fails thresholding is
    recorded once by the first loop, but its slot of [region_labels] stays
    uninitialized and the second loop still hands that slot to
    [find_target_region]: if that call raises, the image gets a second
    record; if it returns a region, the image's column is overwritten with
    that region's vector. *)
Theorem threshold_failure_still_selected
    (images : list image) (uninitialized : nat -> label_map) (i : nat)
    (image : image) :
  images !! i = Some image ->
  threshold_otsu lib image = None ->
  exists m g,
    run_notebook lib images uninitialized = inr (m, g)
    /\ In (i, "extract_region_label") (failed_indexes g)
    /\ final_region_labels lib images uninitialized !! i = Some (uninitialized i)
    /\ (forall e, find_target_region lib (uninitialized i) image = inl e ->
          In (i, "find_target_region") (failed_indexes g))
    /\ (forall r vocab,
          find_target_region lib (uninitialized i) image = inr r ->
          extract_vocab r = inr vocab -> mcolumn m i = Some vocab).
Proof.
  intros Himg Hth. rewrite run_notebook_eq. eexists _, _. split; [reflexivity|].
  assert (Hi : (i < length images)%nat) by now apply lookup_lt_Some in Himg.
  assert (Hin : In i (range (length images))) by now apply in_range.
  set (rl := final_region_labels lib images uninitialized).
  assert (Herr : extract_region_label lib image =
                 inl (ValueError (otsu_error_args lib image))).
  { unfold extract_region_label. now rewrite Hth. }
  assert (Hrl : rl !! i = Some (uninitialized i)).
  { unfold rl. rewrite (lookup_final_region_labels lib images _ i image Himg).
    now rewrite Herr. }
  assert (Hv : vocab_of lib rl images i =
               (region <- find_target_region lib (uninitialized i) image ;;
                extract_vocab region)).
  { unfold vocab_of.
    now rewrite (getitem_lookup _ _ _ Hrl), (getitem_lookup _ _ _ Himg). }
  repeat split.
  - apply in_reports_earlier.
    apply (in_reports _ _ _ i (otsu_error_args lib image)).
    apply (in_omap _ _ i); [assumption|].
    unfold label_failure. now rewrite Himg, Herr.
  - exact Hrl.
  - intros e He.
    destruct (find_target_region_cases lib (uninitialized i) image)
      as [Hbad|[r Hr]]; [|congruence].
    eapply in_reports, (in_omap _ _ i); [assumption|].
    unfold vocab_failure. rewrite Hv, Hbad. reflexivity.
  - intros r vocab Hr Hvocab.
    apply (mcolumn_foldl_stored lib rl images _ _ (length images));
      auto using has_shape_np_zeros.
    rewrite Hv, Hr. exact Hvocab.
Qed.

(** C2 (as the code has it). The failure index list holds first the images
    that failed thresholding, then the images whose region selection raised;
    each of the two parts is in increasing image order. *)
Theorem failed_index_list_by_stage
    (images : list image) (uninitialized : nat -> label_map) :
  exists m g,
    run_notebook lib images uninitialized = inr (m, g)
    /\ failed_indexes g =
         map (fun i => (i, "extract_region_label"))
             (List.filter (threshold_fails lib images) (range (length images)))
         ++ map (fun i => (i, "find_target_region"))
                (List.filter
                   (selection_fails lib
                      (final_region_labels lib images uninitialized) images)
                   (range (length images)))
    /\ failed_index_list g =
         List.filter (threshold_fails lib images) (range (length images))
         ++ List.filter
              (selection_fails lib
                 (final_region_labels lib images uninitialized) images)
              (range (length images))
    /\ StronglySorted lt
         (List.filter (threshold_fails lib images) (range (length images)))
    /\ StronglySorted lt
         (List.filter
            (selection_fails lib
               (final_region_labels lib images uninitialized) images)
            (range (length images))).
Proof.
  rewrite run_notebook_eq. eexists _, _. split; [reflexivity|].
  assert (Hrec : forall g1,
    failed_indexes g1 =
      map (fun i => (i, "extract_region_label"))
          (List.filter (threshold_fails lib images) (range (length images)))
      ++ map (fun i => (i, "find_target_region"))
             (List.filter
                (selection_fails lib
                   (final_region_labels lib images uninitialized) images)
                (range (length images))) ->
    failed_index_list g1 =
      List.filter (threshold_fails lib images) (range (length images))
      ++ List.filter
           (selection_fails lib
              (final_region_labels lib images uninitialized) images)
           (range (length images))).
  { intros g1 H. unfold failed_index_list. rewrite H, map_app, !map_map. simpl.
    now rewrite !map_id. }
  assert (Hfailed : failed_indexes
           (reports
              (reports {| failed_indexes := []; printed := [] |}
                 "extract_region_label"
                 (omap (label_failure lib images) (range (length images))))
              "find_target_region"
              (omap (vocab_failure lib
                       (final_region_labels lib images uninitialized) images)
                    (range (length images)))) =
      map (fun i => (i, "extract_region_label"))
          (List.filter (threshold_fails lib images) (range (length images)))
      ++ map (fun i => (i, "find_target_region"))
             (List.filter
                (selection_fails lib
                   (final_region_labels lib images uninitialized) images)
                (range (length images)))).
  { unfold reports. simpl.
    now rewrite !map_tag_fst, label_failure_indices, vocab_failure_indices. }
  split; [exact Hfailed|]. split; [exact (Hrec _ Hfailed)|].
  split; apply filter_seq_increasing.
Qed.

(** C9. One turn of the second loop on a 10-row matrix: when
    [find_target_region] returns a region, the turn writes that region's
    vector into column [i], leaves every other column as it was and leaves
    the globals as they were; when it raises, the turn leaves the matrix as
    it was and appends the one record [(i, "find_target_region")]. *)
Theorem vocab_turn_frame
    (region_labels : list label_map) (images : list image) (i : nat)
    (m : list (list float)) (g : globals)
    (region_label : label_map) (image : image) :
  region_labels !! i = Some region_label ->
  images !! i = Some image ->
  has_shape m 10 (length images) ->
  (forall r vocab,
     find_target_region lib region_label image = inr r ->
     extract_vocab r = inr vocab ->
     exists m',
       vocab_turn lib region_labels images i (m, g) = inr (m', g)
       /\ mcolumn m' i = Some vocab
       /\ forall j, j <> i -> mcolumn m' j = mcolumn m j)
  /\ (forall e,
        find_target_region lib region_label image = inl e ->
        exists g',
          vocab_turn lib region_labels images i (m, g) = inr (m, g')
          /\ failed_indexes g' = failed_indexes g ++ [(i, "find_target_region")]).
Proof.
  intros Hlbl Himg Hm.
  assert (Hl : (i < length region_labels)%nat) by now apply lookup_lt_Some in Hlbl.
  assert (Hi : (i < length images)%nat) by now apply lookup_lt_Some in Himg.
  assert (Hv : vocab_of lib region_labels images i =
               (region <- find_target_region lib region_label image ;;
                extract_vocab region)).
  { unfold vocab_of.
    now rewrite (getitem_lookup _ _ _ Hlbl), (getitem_lookup _ _ _ Himg). }
  rewrite vocab_turn_eq by assumption.
  unfold store_vocab, vocab_failure. rewrite Hv. split.
  - intros r vocab Hr Hvocab. rewrite Hr. cbn [bind]. rewrite Hvocab.
    eexists. split; [now rewrite reports_nil|].
    assert (Hlen : length vocab = length m).
    { destruct (extract_vocab_length r) as (v & Hv' & Hlen).
      destruct Hm. congruence. }
    split.
    + apply mcolumn_zip_insert_eq; [assumption|].
      eapply has_shape_lt; eassumption.
    + intros j Hj. apply mcolumn_zip_insert_ne; auto.
  - intros e He.
    destruct (find_target_region_cases lib region_label image)
      as [Hbad|[r Hr]]; [|congruence].
    rewrite Hbad. cbn [bind option_list]. eexists. split; reflexivity.
Qed.

(** C10. On an empty batch the notebook ends without an exception, with a
    matrix of 10 rows and no column and with an empty failure list. *)
Theorem run_notebook_empty_batch (uninitialized : nat -> label_map) :
  exists m g,
    run_notebook lib [] uninitialized = inr (m, g)
    /\ has_shape m 10 0
    /\ failed_indexes g = []
    /\ failed_index_list g = [].
Proof.
  eexists _, _. split; [reflexivity|].
  split; [apply has_shape_np_zeros|]. split; reflexivity.
Qed.

End Batch.

(** ** Closed instances *)

(** Area 30 passes the filter and eccentricity 0.98 does not. *)
Example filter_boundaries :
  large_and_round Doubles.left_lobe = true
  /\ large_and_round Doubles.too_small = false
  /\ large_and_round Doubles.too_long = false.
Proof. repeat split; reflexivity. Qed.


Lemma find_target_region_close_picks_rightmost_witness :
  Forall (fun x => is_nan (mean_intensity x) = false)
         (List.filter large_and_round
            (regionprops
               (Doubles.lib_with
                  [Samples.dim; Doubles.left_lobe; Doubles.right_lobe])
               [] Doubles.tall))
  /\ top_two (regionprops
                (Doubles.lib_with
                   [Samples.dim; Doubles.left_lobe; Doubles.right_lobe])
                [] Doubles.tall)
     = [Doubles.left_lobe; Doubles.right_lobe]
  /\ exists r,
       find_target_region
         (Doubles.lib_with [Samples.dim; Doubles.left_lobe; Doubles.right_lobe])
         [] Doubles.tall = inr r
       /\ r = Doubles.right_lobe
       /\ Float64.le (snd (centroid Doubles.left_lobe)) (snd (centroid r)) = true
       /\ Float64.le (snd (centroid Doubles.right_lobe)) (snd (centroid r)) = true.
Proof.
  assert (Hnum : Forall (fun x => is_nan (mean_intensity x) = false)
            (List.filter large_and_round
               (regionprops
                  (Doubles.lib_with
                     [Samples.dim; Doubles.left_lobe; Doubles.right_lobe])
                  [] Doubles.tall))).
  { vm_compute. repeat constructor. }
  split; [exact Hnum|]. split; [reflexivity|].
  exact (find_target_region_close_picks_rightmost
           (Doubles.lib_with [Samples.dim; Doubles.left_lobe; Doubles.right_lobe])
           [] Doubles.tall Doubles.left_lobe Doubles.right_lobe
           (or_intror Hnum) eq_refl eq_refl eq_refl).
Defined.

(** The selector's choice between the blobs at (5, 5) and (90, 5) of an
    image 100 rows high. *)
Example far_pair_selected :
  find_target_region (Doubles.lib_with [Doubles.top_blob; Doubles.bottom_blob])
                     [] Doubles.tall = inr Doubles.bottom_blob
  /\ bottom_left_distance 100 Doubles.bottom_blob = 11.180339887498949%float
  /\ bottom_left_distance 100 Doubles.top_blob = 95.13148795220224%float.
Proof. repeat split; vm_compute; reflexivity. Qed.

Lemma find_target_region_far_picks_bottom_left_witness :
  Forall (fun x => is_nan (mean_intensity x) = false)
         (List.filter large_and_round
            (regionprops
               (Doubles.lib_with
                  [Samples.dim; Doubles.top_blob; Doubles.bottom_blob])
               [] Doubles.tall))
  /\ List.filter large_and_round
       (regionprops
          (Doubles.lib_with [Samples.dim; Doubles.top_blob; Doubles.bottom_blob])
          [] Doubles.tall) <> []
  /\ top_two (regionprops
                (Doubles.lib_with
                   [Samples.dim; Doubles.top_blob; Doubles.bottom_blob])
                [] Doubles.tall)
     = [Doubles.top_blob; Doubles.bottom_blob]
  /\ two_regions_close [Doubles.top_blob; Doubles.bottom_blob] = false
  /\ find_target_region
       (Doubles.lib_with [Samples.dim; Doubles.top_blob; Doubles.bottom_blob])
       [] Doubles.tall = inr Doubles.bottom_blob
  /\ PrimFloat.sqrt
       (PrimFloat.add
          (PrimFloat.mul (PrimFloat.sub 100 90) (PrimFloat.sub 100 90))
          (PrimFloat.mul (PrimFloat.sub 0 5) (PrimFloat.sub 0 5)))
     = 11.180339887498949%float
  /\ PrimFloat.sqrt
       (PrimFloat.add
          (PrimFloat.mul (PrimFloat.sub 100 5) (PrimFloat.sub 100 5))
          (PrimFloat.mul (PrimFloat.sub 0 5) (PrimFloat.sub 0 5)))
     = 95.13148795220224%float
  /\ Float64.lt 95.13148795220224 11.180339887498949 = false
  /\ Float64.le 11.180339887498949 95.13148795220224 = true.
Proof.
  assert (Hnum : Forall (fun x => is_nan (mean_intensity x) = false)
            (List.filter large_and_round
               (regionprops
                  (Doubles.lib_with
                     [Samples.dim; Doubles.top_blob; Doubles.bottom_blob])
                  [] Doubles.tall))).
  { vm_compute. repeat constructor. }
  assert (Hne : List.filter large_and_round
            (regionprops
               (Doubles.lib_with
                  [Samples.dim; Doubles.top_blob; Doubles.bottom_blob])
               [] Doubles.tall) <> []).
  { vm_compute. discriminate. }
  destruct (find_target_region_far_picks_bottom_left
              (Doubles.lib_with
                 [Samples.dim; Doubles.top_blob; Doubles.bottom_blob])
              [] Doubles.tall (or_intror Hnum) Hne eq_refl)
    as (r & Hr & Hin & Hmin & Hle).
  assert (Hreturn : find_target_region
            (Doubles.lib_with
               [Samples.dim; Doubles.top_blob; Doubles.bottom_blob])
            [] Doubles.tall = inr Doubles.bottom_blob)
    by (vm_compute; reflexivity).
  assert (r = Doubles.bottom_blob) as -> by congruence.
  split; [exact Hnum|]. split; [exact Hne|]. split; [reflexivity|].
  split; [reflexivity|]. split; [exact Hreturn|].
  split; [vm_compute; reflexivity|]. split; [vm_compute; reflexivity|].
  split.
  - exact (Hmin Doubles.top_blob (or_introl eq_refl)).
  - exact (Hle Doubles.top_blob (or_introl eq_refl) eq_refl eq_refl).
Defined.

Lemma find_target_region_single_candidate_witness :
  List.filter large_and_round
    (regionprops (Doubles.lib_with [Doubles.too_small; Doubles.right_lobe])
                 [] Doubles.tall) = [Doubles.right_lobe]
  /\ two_regions_close
       (top_two (regionprops
                   (Doubles.lib_with [Doubles.too_small; Doubles.right_lobe])
                   [] Doubles.tall)) = false
  /\ find_target_region
       (Doubles.lib_with [Doubles.too_small; Doubles.right_lobe])
       [] Doubles.tall = inr Doubles.right_lobe.
Proof.
  split; [reflexivity|].
  exact (find_target_region_single_candidate
           (Doubles.lib_with [Doubles.too_small; Doubles.right_lobe])
           [] Doubles.tall Doubles.right_lobe eq_refl).
Defined.

(** A batch of one single-intensity image, allocated over zeroed memory:
    the image is recorded by both loops. *)
Example flat_image_recorded_twice :
  run_notebook Doubles.lib [Doubles.flat] Doubles.zero_filled =
    inr (np_zeros 10 1,
         {| failed_indexes :=
              [(0%nat, "extract_region_label"); (0%nat, "find_target_region")];
            printed :=
              [(0%nat, [AStr "invalid image for otsu thresholding"; AFloat 3]);
               (0%nat, [AStr "bad threshold"; APairs []])] |}).
Proof. vm_compute. reflexivity. Qed.

(** The same batch when the selector finds a blob in the stale slot: the
    failed image is recorded once and its column holds that blob's vector. *)
Example flat_image_column_overwritten :
  run_notebook (Doubles.lib_with [Doubles.right_lobe]) [Doubles.flat]
               Doubles.zero_filled =
    inr ([[40]; [0.5]; [0]; [0]; [0]; [0]; [0]; [7]; [7]; [7]]%float,
         {| failed_indexes := [(0%nat, "extract_region_label")];
            printed :=
              [(0%nat, [AStr "invalid image for otsu thresholding"; AFloat 3])] |}).
Proof. vm_compute. reflexivity. Qed.

Lemma threshold_failure_still_selected_witness :
  [Doubles.flat] !! 0%nat = Some Doubles.flat
  /\ threshold_otsu Doubles.lib Doubles.flat = None
  /\ exists m g,
       run_notebook Doubles.lib [Doubles.flat] Doubles.zero_filled = inr (m, g)
       /\ In (0%nat, "extract_region_label") (failed_indexes g)
       /\ final_region_labels Doubles.lib [Doubles.flat] Doubles.zero_filled
            !! 0%nat = Some (Doubles.zero_filled 0%nat)
       /\ (forall e,
             find_target_region Doubles.lib (Doubles.zero_filled 0%nat)
                                Doubles.flat = inl e ->
             In (0%nat, "find_target_region") (failed_indexes g))
       /\ (forall r vocab,
             find_target_region Doubles.lib (Doubles.zero_filled 0%nat)
                                Doubles.flat = inr r ->
             extract_vocab r = inr vocab -> mcolumn m 0 = Some vocab).
Proof.
  split; [reflexivity|]. split; [reflexivity|].
  exact (threshold_failure_still_selected Doubles.lib [Doubles.flat]
           Doubles.zero_filled 0%nat Doubles.flat eq_refl eq_refl).
Defined.

(** C2 (as the spec has it) fails. In the batch [speck; flat] both images
    fail, image 0 at region selection and image 1 at thresholding, and the
    failure index list starts with 1: it is not in input order. *)
Lemma failed_index_list_out_of_input_order :
  (exists m g,
     run_notebook Doubles.lib [Doubles.speck; Doubles.flat] Doubles.zero_filled
       = inr (m, g)
     /\ failed_indexes g =
          [(1%nat, "extract_region_label"); (0%nat, "find_target_region");
           (1%nat, "find_target_region")]
     /\ failed_index_list g = [1; 0; 1]%nat
     /\ ~ in_input_order (failed_index_list g)).
Proof.
  eexists _, _. split; [vm_compute; reflexivity|].
  split; [reflexivity|]. split; [reflexivity|].
  intros H. specialize (H 1%nat 0%nat 0%nat 1%nat eq_refl eq_refl). lia.
Qed.

Lemma vocab_turn_frame_witness :
  [[[1%Z]]] !! 0%nat = Some [[1%Z]]
  /\ [Doubles.tall] !! 0%nat = Some Doubles.tall
  /\ has_shape (np_zeros 10 1) 10 (length [Doubles.tall])
  /\ (forall r vocab,
        find_target_region (Doubles.lib_with [Doubles.right_lobe])
                           [[1%Z]] Doubles.tall = inr r ->
        extract_vocab r = inr vocab ->
        exists m',
          vocab_turn (Doubles.lib_with [Doubles.right_lobe]) [[[1%Z]]]
                     [Doubles.tall] 0
                     (np_zeros 10 1, {| failed_indexes := []; printed := [] |})
            = inr (m', {| failed_indexes := []; printed := [] |})
          /\ mcolumn m' 0 = Some vocab
          /\ forall j, j <> 0%nat -> mcolumn m' j = mcolumn (np_zeros 10 1) j)
  /\ (forall e,
        find_target_region (Doubles.lib_with [Doubles.right_lobe])
                           [[1%Z]] Doubles.tall = inl e ->
        exists g',
          vocab_turn (Doubles.lib_with [Doubles.right_lobe]) [[[1%Z]]]
                     [Doubles.tall] 0
                     (np_zeros 10 1, {| failed_indexes := []; printed := [] |})
            = inr (np_zeros 10 1, g')
          /\ failed_indexes g' = [] ++ [(0%nat, "find_target_region")]).
Proof.
  split; [reflexivity|]. split; [reflexivity|].
  split; [apply has_shape_np_zeros|].
  exact (vocab_turn_frame (Doubles.lib_with [Doubles.right_lobe]) [[[1%Z]]]
           [Doubles.tall] 0%nat (np_zeros 10 1)
           {| failed_indexes := []; printed := [] |} [[1%Z]] Doubles.tall
           eq_refl eq_refl (has_shape_np_zeros 10 1)).
Defined.

(** One turn on a lone bright blob writes its vector into column 0. *)
Example vocab_turn_writes_column :
  vocab_turn (Doubles.lib_with [Doubles.right_lobe]) [[[1%Z]]] [Doubles.tall] 0
             (np_zeros 10 1, {| failed_indexes := []; printed := [] |})
  = inr ([[40]; [0.5]; [0]; [0]; [0]; [0]; [0]; [7]; [7]; [7]]%float,
         {| failed_indexes := []; printed := [] |}).
Proof. vm_compute. reflexivity. Qed.

(** * Further properties *)

(** ** The order of binary64 numbers *)

Module Float64Order.
Import Float64.

Ltac compare_cases :=
  repeat match goal with
  | H : context [Z.compare ?a ?b] |- _ => destruct (Z.compare_spec a b); subst
  | |- context [Z.compare ?a ?b] => destruct (Z.compare_spec a b); subst
  | H : context [Pos.compare ?a ?b] |- _ => destruct (Pos.compare_spec a b); subst
  | |- context [Pos.compare ?a ?b] => destruct (Pos.compare_spec a b); subst
  end.

Lemma SFleb_trans (x y z : spec_float) :
  SFleb x y = true -> SFleb y z = true -> SFleb x z = true.
Proof.
  unfold SFleb.
  destruct x as [sx|sx| |sx mx ex], y as [sy|sy| |sy my ey],
    z as [sz|sz| |sz mz ez]; simpl; try discriminate; try reflexivity;
    try (destruct sx; simpl; try discriminate; try reflexivity);
    try (destruct sy; simpl; try discriminate; try reflexivity);
    try (destruct sz; simpl; try discriminate; try reflexivity);
    change (PosDef.Pos.compare_cont Eq) with Pos.compare;
    intros H1 H2; compare_cases; simpl in *;
    try discriminate; try reflexivity; try lia.
Qed.

Lemma le_trans (x y z : float) :
  le x y = true -> le y z = true -> le x z = true.
Proof. unfold le. rewrite !leb_spec. apply SFleb_trans. Qed.

Lemma le_opp (x y : float) :
  le (PrimFloat.opp x) (PrimFloat.opp y) = le y x.
Proof.
  unfold le. rewrite !leb_spec, !opp_spec. unfold SFleb.
  now rewrite Float64Facts.SFcompare_opp.
Qed.

Lemma opp_not_nan (x : float) : is_nan x = false -> is_nan (PrimFloat.opp x) = false.
Proof.
  rewrite !Float64Facts.not_nan_spec, opp_spec. intros H E. apply H.
  destruct (Prim2SF x); simpl in E; congruence.
Qed.

(** Of two numbers, one is at or below the other. *)
Lemma le_total (x y : float) :
  is_nan x = false -> is_nan y = false -> le x y = true \/ le y x = true.
Proof.
  intros Hx Hy. destruct (lt y x) eqn:E.
  - right. now apply Float64Facts.lt_le_incl.
  - left. now apply Float64Facts.not_lt_le.
Qed.

End Float64Order.

(** ** [sorted] on keys that are numbers *)

Lemma insert_sorted_permutation {A} (key : A -> float) (x : A) (l : list A) :
  Permutation (insert_sorted key x l) (x :: l).
Proof.
  induction l as [|y l IH]; simpl; [reflexivity|].
  destruct (Float64.lt (key y) (key x)); [|reflexivity].
  rewrite IH. apply perm_swap.
Qed.

Lemma sorted_permutation {A} (key : A -> float) (l : list A) :
  Permutation (sorted key l) l.
Proof.
  induction l as [|x l IH]; simpl; [reflexivity|].
  fold (sorted key l). now rewrite insert_sorted_permutation, IH.
Qed.

Lemma insert_sorted_ascending {A} (key : A -> float) (x : A) (l : list A) :
  is_nan (key x) = false -> Forall (fun y => is_nan (key y) = false) l ->
  StronglySorted (fun u v => Float64.le (key u) (key v) = true) l ->
  StronglySorted (fun u v => Float64.le (key u) (key v) = true)
                 (insert_sorted key x l).
Proof.
  intros Hx Hl Hs. induction Hs as [|y l Hs IH Hy]; simpl.
  - repeat constructor.
  - apply Forall_cons in Hl as [Hny Hl].
    destruct (Float64.lt (key y) (key x)) eqn:E.
    + constructor; [now apply IH|].
      apply Forall_forall. intros z Hz.
      apply list_elem_of_In, in_insert_sorted in Hz as [->|Hz].
      * now apply Float64Facts.lt_le_incl.
      * rewrite Forall_forall in Hy. now apply Hy, list_elem_of_In.
    + assert (Hxy : Float64.le (key x) (key y) = true)
        by now apply Float64Facts.not_lt_le.
      constructor; [now constructor|].
      constructor; [assumption|].
      eapply Forall_impl; [exact Hy|]. simpl. intros z Hz.
      now apply (Float64Order.le_trans _ (key y)).
Qed.

(** [sorted] puts its input in ascending key order. *)
Lemma sorted_ascending {A} (key : A -> float) (l : list A) :
  Forall (fun y => is_nan (key y) = false) l ->
  StronglySorted (fun u v => Float64.le (key u) (key v) = true) (sorted key l).
Proof.
  induction 1 as [|x l Hx Hl IH]; simpl; [constructor|].
  fold (sorted key l). apply insert_sorted_ascending; auto.
  apply Forall_forall. intros y Hy.
  apply list_elem_of_In, in_sorted in Hy.
  rewrite Forall_forall in Hl. now apply Hl, list_elem_of_In.
Qed.

Lemma strongly_sorted_split {A} (R : A -> A -> Prop) (l1 l2 : list A) :
  StronglySorted R (l1 ++ l2) ->
  forall x y, In x l1 -> In y l2 -> R x y.
Proof.
  induction l1 as [|a l1 IH]; simpl; intros Hs x y Hx Hy; [destruct Hx|].
  apply StronglySorted_inv in Hs as [Hs Ha].
  destruct Hx as [<-|Hx]; [|now apply IH].
  rewrite Forall_forall in Ha. apply Ha, list_elem_of_In, in_or_app. now right.
Qed.

(** Without any assumption on the keys, each entry of a sorted list has a key
    that its successor's key is not below. *)
Lemma insert_sorted_adjacent {A} (key : A -> float) (x : A) (l : list A) :
  Sorted (fun u v => Float64.lt (key v) (key u) = false) l ->
  Sorted (fun u v => Float64.lt (key v) (key u) = false) (insert_sorted key x l).
Proof.
  induction l as [|y l IH]; simpl; intros Hs; [repeat constructor|].
  destruct (Float64.lt (key y) (key x)) eqn:E.
  - apply Sorted_inv in Hs as [Hs Hy].
    constructor; [now apply IH|].
    destruct l as [|z l]; simpl.
    + constructor. now apply Float64Facts.lt_asym.
    + destruct (Float64.lt (key z) (key x)).
      * constructor. now inversion Hy.
      * constructor. now apply Float64Facts.lt_asym.
  - constructor; [assumption|]. now constructor.
Qed.

Lemma sorted_adjacent {A} (key : A -> float) (l : list A) :
  Sorted (fun u v => Float64.lt (key v) (key u) = false) (sorted key l).
Proof.
  induction l as [|x l IH]; simpl; [constructor|].
  fold (sorted key l). now apply insert_sorted_adjacent.
Qed.

Lemma sorted_take_adjacent {A} (R : A -> A -> Prop) (l : list A) (a b : A)
    (rest : list A) :
  Sorted R l -> take 2 l = a :: b :: rest -> R a b.
Proof.
  destruct l as [|x [|y l]]; simpl; try discriminate.
  intros Hs [= <- <- _]. apply Sorted_inv in Hs as [_ Hd]. now inversion Hd.
Qed.

(** ** More on the selector *)

Section SelectorMore.

Variable lib : library.

Lemma find_target_region_in_top_two
    (region_label : label_map) (image : image) (r : region) :
  find_target_region lib region_label image = inr r ->
  In r (top_two (regionprops lib region_label image)).
Proof.
  unfold find_target_region. intros Hr.
  destruct (select_region_cases (regionprops lib region_label image)
              (shape0 image)) as [[_ Herr]|(r' & Hr' & Hin)]; congruence.
Qed.

(** X1. Let the survivors of the filter be two at most, or their mean
    intensities be numbers. A region [find_target_region] returns is one of
    the descriptors [regionprops] gave, has area at least 30 and eccentricity
    below 0.98, and is one of the (at most two) entries kept after the
    brightness sort. *)
Theorem find_target_region_returns_survivor
    (region_label : label_map) (image : image) (r : region) :
  (length (List.filter large_and_round (regionprops lib region_label image))
   <= 2)%nat
  \/ Forall (fun x => is_nan (mean_intensity x) = false)
            (List.filter large_and_round (regionprops lib region_label image)) ->
  find_target_region lib region_label image = inr r ->
  In r (regionprops lib region_label image)
  /\ (AREA_THRESHOLD <= area r)%Z
  /\ Float64.lt (eccentricity r) ECCENTRICITY_THRESHOLD = true
  /\ In r (top_two (regionprops lib region_label image))
  /\ (length (top_two (regionprops lib region_label image)) <= 2)%nat.
Proof.
  intros _ Hr. pose proof (find_target_region_in_top_two _ _ _ Hr) as Hin.
  destruct (in_top_two _ _ Hin) as [Hreg Hkeep].
  unfold large_and_round in Hkeep. apply andb_true_iff in Hkeep as [Ha He].
  apply Z.leb_le in Ha. auto using length_top_two.
Qed.

(** X2. When the mean intensities of the survivors are numbers, every
    survivor that is not kept after the brightness sort is no brighter than
    any kept one, so no brighter than the returned region: the selector
    chooses among the two brightest survivors. *)
Theorem find_target_region_among_two_brightest
    (region_label : label_map) (image : image) (r : region) :
  Forall (fun x => is_nan (mean_intensity x) = false)
         (List.filter large_and_round (regionprops lib region_label image)) ->
  find_target_region lib region_label image = inr r ->
  exists rest,
    Permutation (List.filter large_and_round (regionprops lib region_label image))
                (top_two (regionprops lib region_label image) ++ rest)
    /\ forall c, In c rest ->
         Float64.le (mean_intensity c) (mean_intensity r) = true.
Proof.
  intros Hnum Hr.
  pose proof (find_target_region_in_top_two _ _ _ Hr) as Hin.
  set (filtered := List.filter large_and_round
                     (regionprops lib region_label image)) in *.
  set (key := fun x : region => PrimFloat.opp (mean_intensity x)).
  exists (drop 2 (sorted key filtered)). unfold top_two. fold filtered key.
  rewrite take_drop. split; [now rewrite sorted_permutation|].
  intros c Hc.
  assert (Hs : StronglySorted (fun u v => Float64.le (key u) (key v) = true)
                 (take 2 (sorted key filtered) ++ drop 2 (sorted key filtered))).
  { rewrite take_drop. apply sorted_ascending.
    eapply Forall_impl; [exact Hnum|]. simpl. intros x Hx.
    now apply Float64Order.opp_not_nan. }
  pose proof (strongly_sorted_split _ _ _ Hs r c Hin Hc) as Hle.
  unfold key in Hle. now rewrite Float64Order.le_opp in Hle.
Qed.

(** X3. Let the survivors of the filter be two at most, or their mean
    intensities be numbers. With two entries [a], [b] kept after the
    brightness sort, [a] first: [b] is not brighter than [a], and when the
    two are not close the selector returns [b] only if [b] is strictly nearer
    to the bottom-left corner, the distance of a centroid (row, column) being
    the square root of (rows - row)^2 + (0 - column)^2 in binary64
    arithmetic; at equal distance it returns [a]. *)
Theorem find_target_region_far_tie
    (region_label : label_map) (image : image) (a b : region) :
  (length (List.filter large_and_round (regionprops lib region_label image))
   <= 2)%nat
  \/ Forall (fun x => is_nan (mean_intensity x) = false)
            (List.filter large_and_round (regionprops lib region_label image)) ->
  top_two (regionprops lib region_label image) = [a; b] ->
  two_regions_close [a; b] = false ->
  Float64.lt (mean_intensity a) (mean_intensity b) = false
  /\ let distance := fun x : region =>
       let rows := Float64.of_Z (Z.of_nat (length image)) in
       let down := PrimFloat.sub rows (fst (centroid x)) in
       let left := PrimFloat.sub 0 (snd (centroid x)) in
       PrimFloat.sqrt (PrimFloat.add (PrimFloat.mul down down)
                                     (PrimFloat.mul left left)) in
     find_target_region lib region_label image =
       inr (if Float64.lt (distance b) (distance a) then b else a).
Proof.
  intros _ Htop Hfar. split.
  - pose proof (sorted_adjacent (fun x => PrimFloat.opp (mean_intensity x))
                  (List.filter large_and_round
                     (regionprops lib region_label image))) as Hs.
    pose proof (sorted_take_adjacent _ _ a b [] Hs Htop) as Hab. simpl in Hab.
    now rewrite Float64Facts.lt_opp in Hab.
  - unfold find_target_region.
    assert (Hne : List.filter large_and_round
                    (regionprops lib region_label image) <> []).
    { intros E. apply top_two_nil in E. congruence. }
    rewrite select_region_some, Htop, Hfar, sorted_two by assumption.
    rewrite !bottom_left_distance_formula. unfold shape0. cbv zeta.
    now destruct (Float64.lt _ _).
Qed.

End SelectorMore.

(** X4. The proximity test does not depend on which of the two regions
    comes first, and is false on every list that has not exactly two
    entries. *)
Theorem two_regions_close_symmetric (a b : region) (l : list region) :
  two_regions_close [a; b] = two_regions_close [b; a]
  /\ (length l <> 2%nat -> two_regions_close l = false).
Proof.
  split.
  - unfold two_regions_close.
    assert (Hcomm : forall x y : float,
              PrimFloat.abs (PrimFloat.sub x y) = PrimFloat.abs (PrimFloat.sub y x)).
    { intros x y. apply Prim2SF_inj. rewrite !abs_spec, !sub_spec.
      unfold SF64sub.
      destruct (Prim2SF x) as [sx|sx| |sx mx ex],
               (Prim2SF y) as [sy|sy| |sy my ey]; simpl;
        try reflexivity; try (destruct sx, sy; reflexivity).
      rewrite (Z.min_comm ey ex).
      set (ez := Z.min ex ey).
      set (m := (cond_Zopp sx (Z.pos (shl_align mx ex ez).1) -
                 cond_Zopp sy (Z.pos (shl_align my ey ez).1))%Z).
      replace (cond_Zopp sy (Z.pos (shl_align my ey ez).1) -
               cond_Zopp sx (Z.pos (shl_align mx ex ez).1))%Z with (- m)%Z
        by (unfold m; lia).
      destruct m as [|p|p]; simpl; try reflexivity;
        unfold binary_round, binary_round_aux;
        destruct (shl_align p ez _) as [mz ez'];
        destruct (shr_fexp prec emax (Z.pos mz) ez' loc_Exact) as [mrs e'];
        destruct (shr_fexp prec emax _ e' loc_Exact) as [mrs' e''];
        destruct (shr_m mrs'); try reflexivity;
        destruct (Z.leb e'' (emax - prec)); reflexivity. }
    now rewrite (Hcomm (snd (centroid a))), (Hcomm (fst (centroid a))).
  - destruct l as [|x [|y [|z l']]]; simpl; intros H; try reflexivity. lia.
Qed.

(** ** More on the batch *)

Lemma count_index_fst {B} (i : nat) (l : list (nat * B)) :
  count_index i l = length (List.filter (fun k => (k =? i)%nat) (map fst l)).
Proof.
  unfold count_index. induction l as [|[k x] l IH]; simpl; [reflexivity|].
  destruct (k =? i)%nat; simpl; now rewrite IH.
Qed.

Ltac nat_cases :=
  repeat match goal with
  | |- context [Nat.leb ?x ?y] => destruct (Nat.leb_spec x y)
  | |- context [Nat.ltb ?x ?y] => destruct (Nat.ltb_spec x y)
  end.

Lemma count_in_filter_seq (p : nat -> bool) (i a n : nat) :
  length (List.filter (fun k => (k =? i)%nat) (List.filter p (seq a n))) =
    if p i && (a <=? i)%nat && (i <? a + n)%nat then 1%nat else 0%nat.
Proof.
  revert a. induction n as [|n IH]; intros a; cbn -[Nat.leb Nat.ltb Nat.eqb].
  - destruct (p i); cbn -[Nat.leb Nat.ltb]; nat_cases;
      cbn -[Nat.leb Nat.ltb]. all: lia.
  - destruct (p a) eqn:Ea; cbn -[Nat.leb Nat.ltb Nat.eqb].
    + destruct (Nat.eqb_spec a i) as [->|Hne];
        cbn -[Nat.leb Nat.ltb Nat.eqb]; rewrite IH.
      * rewrite Ea. cbn -[Nat.leb Nat.ltb]. nat_cases;
          cbn -[Nat.leb Nat.ltb]. all: lia.
      * destruct (p i); cbn -[Nat.leb Nat.ltb]; nat_cases;
          cbn -[Nat.leb Nat.ltb]. all: lia.
    + rewrite IH.
      destruct (p i) eqn:Ei; cbn -[Nat.leb Nat.ltb]; [|reflexivity].
      nat_cases; cbn -[Nat.leb Nat.ltb]. all: try lia.
      assert (a = i) by lia. congruence.
Qed.

Lemma threshold_fails_lt (lib : library) (images : list image) (i : nat) :
  threshold_fails lib images i = true -> (i < length images)%nat.
Proof.
  unfold threshold_fails. destruct (images !! i) eqn:E; [|discriminate].
  intros _. now apply lookup_lt_Some in E.
Qed.

Lemma selection_fails_lt (lib : library) (region_labels : list label_map)
    (images : list image) (i : nat) :
  selection_fails lib region_labels images i = true -> (i < length images)%nat.
Proof.
  unfold selection_fails. destruct (region_labels !! i); [|discriminate].
  destruct (images !! i) eqn:E; [|discriminate].
  intros _. now apply lookup_lt_Some in E.
Qed.

Section BatchMore.

Variable lib : library.

(** The failure list of a run, index by index. *)
Lemma failed_index_list_run (images : list image)
    (uninitialized : nat -> label_map) (m : list (list float)) (g : globals) :
  run_notebook lib images uninitialized = inr (m, g) ->
  map fst (failed_indexes g) =
    List.filter (threshold_fails lib images) (range (length images))
    ++ List.filter
         (selection_fails lib (final_region_labels lib images uninitialized)
                          images)
         (range (length images)).
Proof.
  rewrite run_notebook_eq. intros [= _ <-]. unfold reports. simpl.
  rewrite map_app, !map_map. simpl.
  rewrite <- label_failure_indices, <- vocab_failure_indices. reflexivity.
Qed.

(** The columns of a run, index by index. *)
Lemma mcolumn_run (images : list image) (uninitialized : nat -> label_map)
    (m : list (list float)) (g : globals) (i : nat) :
  run_notebook lib images uninitialized = inr (m, g) ->
  (i < length images)%nat ->
  mcolumn m i =
    match vocab_of lib (final_region_labels lib images uninitialized) images i with
    | inr vocab => Some vocab
    | inl _ => Some (replicate 10 0%float)
    end.
Proof.
  rewrite run_notebook_eq. intros [= <- _] Hi.
  destruct (vocab_of lib _ images i) as [e|v] eqn:E.
  - rewrite (mcolumn_foldl_failed lib _ images _ _ (length images) i e);
      auto using has_shape_np_zeros, mcolumn_np_zeros.
  - apply (mcolumn_foldl_stored lib _ images _ _ (length images));
      auto using has_shape_np_zeros. now apply in_range.
Qed.

Lemma run_notebook_shape
    (images : list image) (uninitialized : nat -> label_map) :
  exists m g,
    run_notebook lib images uninitialized = inr (m, g)
    /\ has_shape m 10 (length images).
Proof.
  rewrite run_notebook_eq. eexists _, _. split; [reflexivity|].
  apply has_shape_foldl_store_vocab, has_shape_np_zeros.
Qed.

(** X5. Whatever the images, the library's answers and the contents of the
    uninitialized buffer, no exception leaves the two loops, and the matrix
    they leave has 10 rows and one column per image, each column holding 10
    numbers. *)
Theorem run_notebook_completes
    (images : list image) (uninitialized : nat -> label_map) :
  exists m g,
    run_notebook lib images uninitialized = inr (m, g)
    /\ has_shape m 10 (length images)
    /\ forall i, (i < length images)%nat ->
         exists column, mcolumn m i = Some column /\ length column = 10%nat.
Proof.
  destruct (run_notebook_shape images uninitialized) as (m & g & Hrun & Hm).
  exists m, g. split; [exact Hrun|]. split; [exact Hm|].
  intros i Hi. rewrite (mcolumn_run _ _ _ _ _ Hrun Hi).
  destruct (vocab_of lib _ images i) as [e|v] eqn:E.
  - eexists. split; [reflexivity|]. apply length_replicate.
  - eexists. split; [reflexivity|]. now apply vocab_of_length in E.
Qed.

(** X6. Each column of the matrix is either all zero or the complete vector
    of a region that [find_target_region] returned for the image of that
    column: no column is written in part. *)
Theorem column_is_zero_or_vector
    (images : list image) (uninitialized : nat -> label_map)
    (i : nat) (image : image) :
  images !! i = Some image ->
  exists m g,
    run_notebook lib images uninitialized = inr (m, g)
    /\ (mcolumn m i = Some (replicate 10 0%float)
        \/ exists region_label r vocab,
             find_target_region lib region_label image = inr r
             /\ extract_vocab r = inr vocab
             /\ mcolumn m i = Some vocab).
Proof.
  intros Himg.
  destruct (run_notebook_shape images uninitialized) as (m & g & Hrun & _).
  exists m, g. split; [exact Hrun|].
  assert (Hi : (i < length images)%nat) by now apply lookup_lt_Some in Himg.
  rewrite (mcolumn_run _ _ _ _ _ Hrun Hi).
  destruct (vocab_of lib _ images i) as [e|v] eqn:E; [now left|right].
  revert E. unfold vocab_of, getitem.
  destruct (final_region_labels lib images uninitialized !! i) as [lbl|];
    [|discriminate].
  rewrite Himg. cbn [bind].
  destruct (find_target_region lib lbl image) as [e|r] eqn:Er; [discriminate|].
  cbn [bind]. intros Hv. eauto 6.
Qed.

Lemma count_index_run
    (images : list image) (uninitialized : nat -> label_map)
    (m : list (list float)) (g : globals) (i : nat) :
  run_notebook lib images uninitialized = inr (m, g) ->
  count_index i (failed_indexes g) =
    ((if threshold_fails lib images i then 1 else 0)
     + (if selection_fails lib (final_region_labels lib images uninitialized)
                           images i then 1 else 0))%nat.
Proof.
  intros Hrun. pose proof (failed_index_list_run _ _ _ _ Hrun) as Hlist.
  rewrite count_index_fst, Hlist, List.filter_app, length_app.
  unfold range. rewrite !count_in_filter_seq. simpl.
  f_equal.
  - destruct (threshold_fails lib images i) eqn:E; [|reflexivity].
    apply threshold_fails_lt in E. apply Nat.ltb_lt in E. now rewrite E.
  - destruct (selection_fails lib _ images i) eqn:E; [|reflexivity].
    apply selection_fails_lt in E. apply Nat.ltb_lt in E. now rewrite E.
Qed.

(** X7. How often an image index stands in the failure list: once if the
    image failed thresholding, plus once if the selection call of the second
    loop raised for it; so at most twice, and never for an index outside the
    batch. *)
Theorem failure_record_count
    (images : list image) (uninitialized : nat -> label_map) (i : nat) :
  exists m g,
    run_notebook lib images uninitialized = inr (m, g)
    /\ count_index i (failed_indexes g) =
         ((if threshold_fails lib images i then 1 else 0)
          + (if selection_fails lib
                  (final_region_labels lib images uninitialized) images i
             then 1 else 0))%nat
    /\ (count_index i (failed_indexes g) <= 2)%nat
    /\ (In i (failed_index_list g) -> (i < length images)%nat).
Proof.
  destruct (run_notebook_shape images uninitialized) as (m & g & Hrun & _).
  exists m, g. split; [exact Hrun|].
  pose proof (count_index_run _ _ _ _ i Hrun) as Hcount.
  split; [exact Hcount|]. split.
  - rewrite Hcount.
    destruct (threshold_fails lib images i), (selection_fails lib _ images i); lia.
  - unfold failed_index_list. rewrite (failed_index_list_run _ _ _ _ Hrun).
    intros Hin.
    apply in_app_or in Hin as [Hin|Hin];
      apply List.filter_In in Hin as [Hin _]; now apply in_range in Hin.
Qed.

(** X8. An image that passes thresholding and for which the selector finds
    no candidate is recorded exactly once, under "find_target_region"; its
    column stays zero, and the printed diagnostic lists the area and
    eccentricity of every blob of the image. *)
Theorem selection_failure_recorded_once
    (images : list image) (uninitialized : nat -> label_map)
    (i : nat) (image : image) (region_label : label_map) (e : exn) :
  images !! i = Some image ->
  extract_region_label lib image = inr region_label ->
  find_target_region lib region_label image = inl e ->
  exists m g,
    run_notebook lib images uninitialized = inr (m, g)
    /\ count_index i (failed_indexes g) = 1%nat
    /\ In (i, "find_target_region") (failed_indexes g)
    /\ mcolumn m i = Some (replicate 10 0%float)
    /\ In (i, [AStr "bad threshold";
               APairs (map (fun r => (area r, eccentricity r))
                           (regionprops lib region_label image))])
          (printed g).
Proof.
  intros Himg Hlbl He.
  destruct (run_notebook_shape images uninitialized) as (m & g & Hrun & _).
  exists m, g. split; [exact Hrun|].
  assert (Hi : (i < length images)%nat) by now apply lookup_lt_Some in Himg.
  set (rl := final_region_labels lib images uninitialized) in *.
  assert (Hrl : rl !! i = Some region_label).
  { unfold rl. rewrite (lookup_final_region_labels lib images _ i image Himg).
    now rewrite Hlbl. }
  assert (Hbad : find_target_region lib region_label image =
                 inl (ValueError
                        [AStr "bad threshold";
                         APairs (map (fun r => (area r, eccentricity r))
                                     (regionprops lib region_label image))])).
  { destruct (find_target_region_cases lib region_label image) as [H|[r Hr]];
      [exact H|congruence]. }
  assert (Hv : vocab_of lib rl images i =
               inl (ValueError
                      [AStr "bad threshold";
                       APairs (map (fun r => (area r, eccentricity r))
                                   (regionprops lib region_label image))])).
  { unfold vocab_of.
    rewrite (getitem_lookup _ _ _ Hrl), (getitem_lookup _ _ _ Himg).
    cbn [bind]. now rewrite Hbad. }
  pose proof (count_index_run images uninitialized m g i Hrun) as Hcount.
  assert (Hth : threshold_fails lib images i = false).
  { unfold threshold_fails. rewrite Himg.
    destruct (extract_region_label_cases lib image)
      as [[_ Herr]|(t & lbl & -> & _)]; [congruence|reflexivity]. }
  assert (Hsel : selection_fails lib rl images i = true).
  { unfold selection_fails. now rewrite Hrl, Himg, Hbad. }
  fold rl in Hcount. rewrite Hth, Hsel in Hcount.
  split; [exact Hcount|].
  pose proof Hrun as Hrun'. rewrite run_notebook_eq in Hrun'.
  injection Hrun' as _ Hg. fold rl in Hg.
  assert (Hin : In (i, [AStr "bad threshold";
                        APairs (map (fun r => (area r, eccentricity r))
                                    (regionprops lib region_label image))])
                   (omap (vocab_failure lib rl images) (range (length images)))).
  { apply (in_omap _ _ i); [now apply in_range|].
    unfold vocab_failure. now rewrite Hv. }
  split; [|split].
  - rewrite <- Hg. eapply in_reports. exact Hin.
  - rewrite (mcolumn_run _ _ _ _ _ Hrun Hi). fold rl. now rewrite Hv.
  - rewrite <- Hg. unfold reports. simpl. apply in_or_app. now right.
Qed.

(** Whether an image is in the failure list is decided by [process_image]. *)
Lemma in_failed_index_list_run
    (images : list image) (uninitialized : nat -> label_map)
    (m : list (list float)) (g : globals) (i : nat) (image : image) :
  run_notebook lib images uninitialized = inr (m, g) ->
  images !! i = Some image ->
  match process_image lib image with
  | inr _ => ~ In i (failed_index_list g)
  | inl _ => In i (failed_index_list g)
  end.
Proof.
  intros Hrun Himg.
  assert (Hi : In i (range (length images))).
  { apply in_range. now apply lookup_lt_Some in Himg. }
  unfold failed_index_list. rewrite (failed_index_list_run _ _ _ _ Hrun).
  set (rl := final_region_labels lib images uninitialized).
  unfold process_image.
  destruct (extract_region_label_cases lib image)
    as [[Hth ->]|(t & lbl & Hth & Hlbl)]; cbn [bind].
  - apply in_or_app. left. apply List.filter_In. split; [exact Hi|].
    unfold threshold_fails. now rewrite Himg, Hth.
  - rewrite Hlbl. cbn [bind].
    assert (Hrl : rl !! i = Some lbl).
    { unfold rl. rewrite (lookup_final_region_labels lib images _ i image Himg).
      now rewrite Hlbl. }
    assert (Hnth : threshold_fails lib images i = false).
    { unfold threshold_fails. now rewrite Himg, Hth. }
    destruct (find_target_region lib lbl image) as [e|r] eqn:Er; cbn [bind].
    + apply in_or_app. right. apply List.filter_In. split; [exact Hi|].
      unfold selection_fails. now rewrite Hrl, Himg, Er.
    + destruct (extract_vocab_length r) as (v & -> & _).
      intros Hin. apply in_app_or in Hin as [Hin|Hin];
        apply List.filter_In in Hin as [_ Hin]; [congruence|].
      revert Hin. unfold selection_fails. now rewrite Hrl, Himg, Er.
Qed.

(** C8 (the code departs from it). Two runs on the same batch against the
    same library can hold different results for one image. An image that
    fails thresholding leaves its slot of [region_labels] as [np.empty]
    handed it out, and the second loop runs the selector on that slot: when
    the memory of one run makes [find_target_region] raise and the memory of
    the other makes it return a region, the first run records the image
    twice and leaves its column zero, the second records it once and fills
    its column with that region's vector, and the two saved index lists
    differ. *)
Theorem two_runs_differ_on_threshold_failure
    (images : list image) (uninitialized1 uninitialized2 : nat -> label_map)
    (i : nat) (image : image) (e : exn) (r : region) :
  images !! i = Some image ->
  threshold_otsu lib image = None ->
  find_target_region lib (uninitialized1 i) image = inl e ->
  find_target_region lib (uninitialized2 i) image = inr r ->
  exists m1 g1 m2 g2 vocab,
    run_notebook lib images uninitialized1 = inr (m1, g1)
    /\ run_notebook lib images uninitialized2 = inr (m2, g2)
    /\ count_index i (failed_indexes g1) = 2%nat
    /\ count_index i (failed_indexes g2) = 1%nat
    /\ failed_index_list g1 <> failed_index_list g2
    /\ mcolumn m1 i = Some (replicate 10 0%float)
    /\ extract_vocab r = inr vocab
    /\ mcolumn m2 i = Some vocab.
Proof.
  intros Himg Hth He Hr.
  destruct (run_notebook_shape images uninitialized1) as (m1 & g1 & Hrun1 & _).
  destruct (run_notebook_shape images uninitialized2) as (m2 & g2 & Hrun2 & _).
  destruct (extract_vocab_length r) as (vocab & Hvocab & _).
  exists m1, g1, m2, g2, vocab.
  assert (Hi : (i < length images)%nat) by now apply lookup_lt_Some in Himg.
  assert (Herr : extract_region_label lib image =
                 inl (ValueError (otsu_error_args lib image))).
  { unfold extract_region_label. now rewrite Hth. }
  assert (Hslot : forall uninitialized,
            final_region_labels lib images uninitialized !! i =
              Some (uninitialized i)).
  { intros u. rewrite (lookup_final_region_labels lib images _ i image Himg).
    now rewrite Herr. }
  assert (Hfails : threshold_fails lib images i = true).
  { unfold threshold_fails. now rewrite Himg, Hth. }
  assert (Hsel1 : selection_fails lib
                    (final_region_labels lib images uninitialized1) images i
                  = true).
  { unfold selection_fails. now rewrite Hslot, Himg, He. }
  assert (Hsel2 : selection_fails lib
                    (final_region_labels lib images uninitialized2) images i
                  = false).
  { unfold selection_fails. now rewrite Hslot, Himg, Hr. }
  pose proof (count_index_run _ _ _ _ i Hrun1) as Hcount1.
  pose proof (count_index_run _ _ _ _ i Hrun2) as Hcount2.
  rewrite Hfails, Hsel1 in Hcount1. rewrite Hfails, Hsel2 in Hcount2.
  simpl in Hcount1, Hcount2.
  split; [exact Hrun1|]. split; [exact Hrun2|].
  split; [exact Hcount1|]. split; [exact Hcount2|]. split.
  - unfold failed_index_list. intros Heq.
    rewrite count_index_fst, Heq, <- count_index_fst in Hcount1. congruence.
  - split; [|split; [exact Hvocab|]].
    + rewrite (mcolumn_run _ _ _ _ _ Hrun1 Hi). unfold vocab_of.
      rewrite (getitem_lookup _ _ _ (Hslot uninitialized1)),
        (getitem_lookup _ _ _ Himg).
      cbn [bind]. now rewrite He.
    + rewrite (mcolumn_run _ _ _ _ _ Hrun2 Hi). unfold vocab_of.
      rewrite (getitem_lookup _ _ _ (Hslot uninitialized2)),
        (getitem_lookup _ _ _ Himg).
      cbn [bind]. rewrite Hr. cbn [bind]. now rewrite Hvocab.
Qed.

(** X9. An image that [process_image] turns into a vector is absent from the
    failure list, and its column holds that vector. *)
Theorem success_fills_column
    (images : list image) (uninitialized : nat -> label_map)
    (i : nat) (image : image) (vocab : list float) :
  images !! i = Some image ->
  process_image lib image = inr vocab ->
  exists m g,
    run_notebook lib images uninitialized = inr (m, g)
    /\ ~ In i (failed_index_list g)
    /\ mcolumn m i = Some vocab.
Proof.
  intros Himg Hp.
  destruct (run_notebook_shape images uninitialized) as (m & g & Hrun & _).
  exists m, g. split; [exact Hrun|]. split.
  - pose proof (in_failed_index_list_run _ _ _ _ i image Hrun Himg) as H.
    now rewrite Hp in H.
  - assert (Hi : (i < length images)%nat) by now apply lookup_lt_Some in Himg.
    set (rl := final_region_labels lib images uninitialized) in *.
    revert Hp. unfold process_image.
    destruct (extract_region_label lib image) as [e|lbl] eqn:Hlbl; [discriminate|].
    cbn [bind]. intros Hp.
    assert (Hrl : rl !! i = Some lbl).
    { unfold rl. rewrite (lookup_final_region_labels lib images _ i image Himg).
      now rewrite Hlbl. }
    rewrite (mcolumn_run _ _ _ _ _ Hrun Hi). fold rl.
    unfold vocab_of.
    rewrite (getitem_lookup _ _ _ Hrl), (getitem_lookup _ _ _ Himg).
    cbn [bind]. now rewrite Hp.
Qed.

End BatchMore.

(** ** The two batch functions on their own *)

Lemma for_range_app {S} (body : nat -> S -> exn + S) (l1 l2 : list nat) (s : S) :
  for_range body (l1 ++ l2) s =
    (s' <- for_range body l1 s ;; for_range body l2 s').
Proof.
  revert s. induction l1 as [|i l1 IH]; intros s; simpl; [reflexivity|].
  destruct (body i s) as [e|s']; simpl; [reflexivity|apply IH].
Qed.

Section BatchFunctions.

Variable lib : library.

(** The second loop over indices that both arguments have. *)
Lemma vocab_loop_within (region_labels : list label_map) (images : list image)
    (l : list nat) (m : list (list float)) (g : globals) :
  Forall (fun i => (i < length region_labels)%nat /\ (i < length images)%nat) l ->
  has_shape m 10 (length images) ->
  exists m' g',
    for_range (vocab_turn lib region_labels images) l (m, g) = inr (m', g')
    /\ has_shape m' 10 (length images).
Proof.
  intros Hl. revert m g.
  induction Hl as [|i l [Hi Hi'] Hl IH]; intros m g Hm.
  - simpl. eauto.
  - rewrite for_range_cons, vocab_turn_eq by assumption. cbn [bind].
    apply IH. now apply has_shape_store_vocab.
Qed.

(** X10. [extract_region_labels_from_images] never raises. Its result has
    one slot per image; the slot of an image that passes thresholding holds
    the labelling of the closed mask of its pixels above the threshold, the
    slot of an image that fails is left as allocated. The records it found
    in [failed_indexes] stay in front, followed by the images that fail, in
    image order. *)
Theorem extract_region_labels_from_images_result
    (images : list image) (uninitialized : nat -> label_map) (g : globals) :
  exists region_labels g',
    extract_region_labels_from_images lib images uninitialized g
      = inr (region_labels, g')
    /\ length region_labels = length images
    /\ (forall i image,
          images !! i = Some image ->
          region_labels !! i =
            Some (match threshold_otsu lib image with
                  | Some thresh =>
                      label_connectivity2 lib
                        (closing_square2 lib
                           (map (map (fun p => Float64.lt thresh p)) image))
                  | None => uninitialized i
                  end))
    /\ failed_indexes g' =
         failed_indexes g
         ++ map (fun i => (i, "extract_region_label"))
                (List.filter (threshold_fails lib images) (range (length images))).
Proof.
  unfold extract_region_labels_from_images.
  rewrite region_labels_loop.
  - eexists _, _. split; [reflexivity|].
    fold (final_region_labels lib images uninitialized).
    split; [apply length_final_region_labels|]. split.
    + intros i image Himg.
      rewrite (lookup_final_region_labels lib images _ i image Himg).
      unfold extract_region_label.
      now destruct (threshold_otsu lib image).
    + unfold reports. simpl. f_equal.
      now rewrite map_tag_fst, label_failure_indices.
  - apply Forall_forall. intros i Hi. now apply list_elem_of_In, in_range in Hi.
  - unfold np_empty, range. now rewrite length_map, length_seq.
Qed.

(** X11. Called with fewer label arrays than images,
    [extract_vocab_from_region_labels] stops with the [IndexError] of the
    first missing slot, which its [except ValueError] does not catch. *)
Theorem extract_vocab_from_region_labels_missing_slot
    (region_labels : list label_map) (images : list image) (g : globals) :
  (length region_labels < length images)%nat ->
  extract_vocab_from_region_labels lib region_labels images g = inl IndexError.
Proof.
  intros Hlen. unfold extract_vocab_from_region_labels, range.
  assert (Hseq : seq 0 (length images) =
                 seq 0 (length region_labels)
                 ++ seq (length region_labels)
                        (S (length images - S (length region_labels)))).
  { rewrite <- (seq_app (length region_labels) _ 0). f_equal. lia. }
  rewrite Hseq, for_range_app.
  destruct (vocab_loop_within region_labels images (seq 0 (length region_labels))
              (np_zeros 10 (length images)) g) as (m' & g' & -> & _).
  - apply Forall_forall. intros i Hi. apply list_elem_of_In, in_seq in Hi. lia.
  - apply has_shape_np_zeros.
  - cbn [bind]. simpl seq. rewrite for_range_cons.
    unfold vocab_turn at 1, getitem at 1.
    rewrite lookup_ge_None_2 by lia. reflexivity.
Qed.

End BatchFunctions.

(** ** The selector and the order of the descriptors *)

Module Float64Strict.
Import Float64.

Lemma SFltb_trans (x y z : spec_float) :
  SFltb x y = true -> SFltb y z = true -> SFltb x z = true.
Proof.
  unfold SFltb.
  destruct x as [sx|sx| |sx mx ex], y as [sy|sy| |sy my ey],
    z as [sz|sz| |sz mz ez]; simpl; try discriminate; try reflexivity;
    try (destruct sx; simpl; try discriminate; try reflexivity);
    try (destruct sy; simpl; try discriminate; try reflexivity);
    try (destruct sz; simpl; try discriminate; try reflexivity);
    change (PosDef.Pos.compare_cont Eq) with Pos.compare;
    intros H1 H2; Float64Order.compare_cases; simpl in *;
    try discriminate; try reflexivity; try lia.
Qed.

Lemma lt_trans (x y z : float) :
  lt x y = true -> lt y z = true -> lt x z = true.
Proof. unfold lt. rewrite !ltb_spec. apply SFltb_trans. Qed.

End Float64Strict.

Lemma filter_permutation {A} (p : A -> bool) (l1 l2 : list A) :
  Permutation l1 l2 -> Permutation (List.filter p l1) (List.filter p l2).
Proof.
  induction 1 as [|x l1 l2 H IH|x y l|l1 l2 l3 H1 IH1 H2 IH2]; simpl.
  - reflexivity.
  - destruct (p x); [now constructor|assumption].
  - destruct (p x), (p y); try reflexivity. apply perm_swap.
  - now transitivity (List.filter p l2).
Qed.

(** Entries whose keys are pairwise strictly ordered are sorted into a
    strictly ascending list. *)
Lemma insert_sorted_strict {A} (key : A -> float) (x : A) (l : list A) :
  (forall y, In y l ->
     Float64.lt (key x) (key y) = true \/ Float64.lt (key y) (key x) = true) ->
  StronglySorted (fun u v => Float64.lt (key u) (key v) = true) l ->
  StronglySorted (fun u v => Float64.lt (key u) (key v) = true)
                 (insert_sorted key x l).
Proof.
  intros Hx Hs. induction Hs as [|y l Hs IH Hy]; simpl.
  - repeat constructor.
  - destruct (Float64.lt (key y) (key x)) eqn:E.
    + constructor; [apply IH; intros z Hz; apply Hx; now right|].
      apply Forall_forall. intros z Hz.
      apply list_elem_of_In, in_insert_sorted in Hz as [->|Hz]; [assumption|].
      rewrite Forall_forall in Hy. now apply Hy, list_elem_of_In.
    + assert (Hxy : Float64.lt (key x) (key y) = true).
      { destruct (Hx y) as [H|H]; [now left|assumption|congruence]. }
      constructor; [now constructor|].
      constructor; [assumption|].
      eapply Forall_impl; [exact Hy|]. simpl. intros z Hz.
      now apply (Float64Strict.lt_trans _ (key y)).
Qed.

Lemma sorted_strict {A} (key : A -> float) (l : list A) :
  NoDup l ->
  (forall u v, In u l -> In v l -> u <> v ->
     Float64.lt (key u) (key v) = true \/ Float64.lt (key v) (key u) = true) ->
  StronglySorted (fun u v => Float64.lt (key u) (key v) = true) (sorted key l).
Proof.
  induction l as [|x l IH]; simpl; intros Hnd Hcmp; [constructor|].
  fold (sorted key l). apply NoDup_cons in Hnd as [Hx Hnd].
  apply insert_sorted_strict.
  - intros y Hy. apply in_sorted in Hy. apply Hcmp; auto.
    intros ->. now apply Hx, list_elem_of_In.
  - apply IH; auto.
Qed.

(** Two arrangements of such entries are sorted into the same list. *)
Lemma sorted_of_permutation {A} (key : A -> float) (l1 l2 : list A) :
  Permutation l1 l2 -> NoDup l1 ->
  (forall u v, In u l1 -> In v l1 -> u <> v ->
     Float64.lt (key u) (key v) = true \/ Float64.lt (key v) (key u) = true) ->
  sorted key l1 = sorted key l2.
Proof.
  intros Hp Hnd Hcmp.
  apply (StronglySorted_unique_strong
           (fun u v => Float64.lt (key u) (key v) = true)).
  - intros u v _ _ Huv Hvu. apply Float64Facts.lt_asym in Huv. congruence.
  - now apply sorted_strict.
  - apply sorted_strict.
    + now rewrite <- Hp.
    + intros u v Hu Hv. apply Hcmp; now rewrite Hp.
  - now rewrite !sorted_permutation.
Qed.

(** X13. The selection does not depend on the order in which [regionprops]
    lists the blobs, as long as some blob survives the filter and the
    survivors are distinct descriptors with pairwise different mean
    intensities. *)
Theorem select_region_order_independent
    (regions1 regions2 : list region) (height : Z) :
  Permutation regions1 regions2 ->
  NoDup (List.filter large_and_round regions1) ->
  (forall u v,
     In u (List.filter large_and_round regions1) ->
     In v (List.filter large_and_round regions1) -> u <> v ->
     Float64.lt (mean_intensity u) (mean_intensity v) = true
     \/ Float64.lt (mean_intensity v) (mean_intensity u) = true) ->
  List.filter large_and_round regions1 <> [] ->
  select_region regions1 height = select_region regions2 height.
Proof.
  intros Hp Hnd Hcmp Hne.
  pose proof (filter_permutation large_and_round _ _ Hp) as Hpf.
  assert (Hne2 : List.filter large_and_round regions2 <> []).
  { intros E. rewrite E in Hpf. now apply Permutation_nil_r in Hpf. }
  rewrite !select_region_some by assumption.
  assert (Htop : top_two regions1 = top_two regions2).
  { unfold top_two. f_equal.
    apply sorted_of_permutation; auto.
    intros u v Hu Hv Huv. rewrite !Float64Facts.lt_opp.
    destruct (Hcmp u v Hu Hv Huv); auto. }
  now rewrite Htop.
Qed.

(** ** Cell 12 *)

Lemma endswith_app (suffix a b : string) :
  endswith suffix b = true -> endswith suffix (a +:+ b) = true.
Proof.
  intros H. induction a as [|c a IH]; simpl; [exact H|].
  rewrite IH. apply orb_true_r.
Qed.

Lemma append_inj_r (a b c : string) : a +:+ b = a +:+ c -> b = c.
Proof. induction a as [|x a IH]; simpl; [auto|]. intros [= H]. auto. Qed.

Lemma append_assoc (a b c : string) : a +:+ b +:+ c = (a +:+ b) +:+ c.
Proof.
  induction a as [|x a IH]; [reflexivity|].
  change (String x (a +:+ b +:+ c) = String x ((a +:+ b) +:+ c)).
  now rewrite IH.
Qed.

Lemma os_path_join_relative (a b : string) :
  startswith "/" b = false -> os_path_join a b = joined_prefix a +:+ b.
Proof.
  unfold os_path_join, joined_prefix. intros ->.
  destruct (String.eqb a "" || endswith "/" a); [reflexivity|].
  apply append_assoc.
Qed.

Lemma np_save_npy (os : string -> npy -> save_result) (file : string)
    (arr : npy) (fs : files) :
  endswith ".npy" file = true ->
  np_save os file arr fs =
    match os file arr with
    | Saved => (<[file := arr]> fs, None)
    | Refused kind => (fs, Some (OSError kind file))
    | Broken kind => (<[file := Incomplete]> fs, Some (OSError kind file))
    end.
Proof. unfold np_save. now intros ->. Qed.

Lemma int_of_str_of_int (i : nat) : int_of_str (str_of_int i) = inr i.
Proof.
  unfold int_of_str, str_of_int.
  assert (Hnn : Nat.to_uint i <> Nil).
  { rewrite <- (Unsigned.of_to i) at 1. rewrite Unsigned.to_of.
    apply DecimalFacts.unorm_nonnil. }
  rewrite (NilZero.usu _ Hnn). now rewrite Unsigned.of_to.
Qed.

Lemma first_column_rows (records : list (nat * string)) :
  for_each (fun row : list string => getitem row 0)
           (map (fun r => [str_of_int (fst r); snd r]) records)
  = inr (map (fun r => str_of_int (fst r)) records).
Proof.
  induction records as [|r l IH]; simpl; [reflexivity|].
  rewrite IH. reflexivity.
Qed.

Lemma astype_int_strs (records : list (nat * string)) :
  astype_int (map (fun r => str_of_int (fst r)) records) = inr (map fst records).
Proof.
  unfold astype_int. induction records as [|r l IH]; simpl; [reflexivity|].
  rewrite int_of_str_of_int. cbn [bind]. rewrite IH. reflexivity.
Qed.

Lemma saved_indexes_round_trip_aux (r : nat * string) (l : list (nat * string)) :
  exists column,
    first_column (np_array (r :: l)) = inr column
    /\ astype_int column = inr (map fst (r :: l)).
Proof.
  eexists. split.
  - unfold np_array, first_column. apply (first_column_rows (r :: l)).
  - apply astype_int_strs.
Qed.

(** X14. The index array that cell 12 builds from a non-empty failure list
    is the list of the records' image indices, in order: the passage of the
    indices through strings loses nothing. On the empty list the same
    expression raises [IndexError], the array having one axis only. *)
Theorem saved_indexes_round_trip (r : nat * string) (l : list (nat * string)) :
  (column <- first_column (np_array (r :: l)) ;; astype_int column)
    = inr (map fst (r :: l))
  /\ (column <- first_column (np_array []) ;; astype_int column)
     = inl IndexError.
Proof.
  split; [|reflexivity].
  unfold np_array, first_column.
  rewrite (first_column_rows (r :: l)). cbn [bind].
  apply astype_int_strs.
Qed.

Lemma save_outputs_paths (output_dir : string) :
  os_path_join output_dir "vocab_matrix.npy"
    <> os_path_join output_dir "failed_indexes.npy"
  /\ endswith ".npy" (os_path_join output_dir "vocab_matrix.npy") = true
  /\ endswith ".npy" (os_path_join output_dir "failed_indexes.npy") = true.
Proof.
  assert (Hv : os_path_join output_dir "vocab_matrix.npy"
               = joined_prefix output_dir +:+ "vocab_matrix.npy")
    by now apply os_path_join_relative.
  assert (Hf : os_path_join output_dir "failed_indexes.npy"
               = joined_prefix output_dir +:+ "failed_indexes.npy")
    by now apply os_path_join_relative.
  rewrite Hv, Hf. split; [|split]; [|now apply endswith_app..].
  intros E. apply append_inj_r in E. discriminate.
Qed.

Lemma save_outputs_eq
    (os : string -> npy -> save_result) (output_dir : string)
    (m : list (list float)) (g : globals) (fs : files) :
  save_outputs os output_dir m g fs =
    match os (os_path_join output_dir "vocab_matrix.npy") (FloatArray m) with
    | Refused kind =>
        (fs, Some (OSError kind (os_path_join output_dir "vocab_matrix.npy")))
    | Broken kind =>
        (<[os_path_join output_dir "vocab_matrix.npy" := Incomplete]> fs,
         Some (OSError kind (os_path_join output_dir "vocab_matrix.npy")))
    | Saved =>
        let fs1 :=
          <[os_path_join output_dir "vocab_matrix.npy" := FloatArray m]> fs in
        match failed_indexes g with
        | [] => (fs1, None)
        | _ :: _ =>
            match os (os_path_join output_dir "failed_indexes.npy")
                     (IntArray (failed_index_list g)) with
            | Saved =>
                (<[os_path_join output_dir "failed_indexes.npy" :=
                     IntArray (failed_index_list g)]> fs1,
                 None)
            | Refused kind =>
                (fs1,
                 Some (OSError kind
                         (os_path_join output_dir "failed_indexes.npy")))
            | Broken kind =>
                (<[os_path_join output_dir "failed_indexes.npy" :=
                     Incomplete]> fs1,
                 Some (OSError kind
                         (os_path_join output_dir "failed_indexes.npy")))
            end
        end
    end.
Proof.
  destruct (save_outputs_paths output_dir) as (_ & Hev & Hef).
  unfold save_outputs. rewrite (np_save_npy _ _ _ _ Hev).
  destruct (os (os_path_join output_dir "vocab_matrix.npy") (FloatArray m));
    try reflexivity.
  cbv zeta.
  destruct (failed_indexes g) as [|r l] eqn:Eg; [reflexivity|].
  cbn [length Nat.ltb Nat.leb].
  destruct (saved_indexes_round_trip_aux r l) as [column [Hc Ha]].
  rewrite Hc. cbn [bind]. rewrite Ha.
  rewrite (np_save_npy _ _ _ _ Hef).
  unfold failed_index_list. rewrite Eg. reflexivity.
Qed.

(** X15. What cell 12 does, by how the operating system answers the two
    writes. If [vocab_matrix.npy] below [OUTPUT_DIR] does not open (the
    directory is missing or may not be written), the cell raises that
    [OSError] and changes no file; if its writing breaks off, the cell
    raises and leaves that file incomplete. Else the file holds the matrix.
    With an empty failure list the cell stops at that and leaves
    [failed_indexes.npy] as it was. With a non-empty one it writes the
    records' image indices to [failed_indexes.npy], or raises the [OSError]
    of that write, the matrix file staying written. The expressions of the
    cell raise nothing themselves, no other file changes, and the two paths
    differ. *)
Theorem save_outputs_effect
    (os : string -> npy -> save_result) (output_dir : string)
    (m : list (list float)) (g : globals) (fs : files) :
  os_path_join output_dir "vocab_matrix.npy"
    <> os_path_join output_dir "failed_indexes.npy"
  /\ save_outputs os output_dir m g fs =
       match os (os_path_join output_dir "vocab_matrix.npy") (FloatArray m) with
       | Refused kind =>
           (fs, Some (OSError kind (os_path_join output_dir "vocab_matrix.npy")))
       | Broken kind =>
           (<[os_path_join output_dir "vocab_matrix.npy" := Incomplete]> fs,
            Some (OSError kind (os_path_join output_dir "vocab_matrix.npy")))
       | Saved =>
           let fs1 :=
             <[os_path_join output_dir "vocab_matrix.npy" := FloatArray m]> fs in
           match failed_indexes g with
           | [] => (fs1, None)
           | _ :: _ =>
               match os (os_path_join output_dir "failed_indexes.npy")
                        (IntArray (failed_index_list g)) with
               | Saved =>
                   (<[os_path_join output_dir "failed_indexes.npy" :=
                        IntArray (failed_index_list g)]> fs1,
                    None)
               | Refused kind =>
                   (fs1,
                    Some (OSError kind
                            (os_path_join output_dir "failed_indexes.npy")))
               | Broken kind =>
                   (<[os_path_join output_dir "failed_indexes.npy" :=
                        Incomplete]> fs1,
                    Some (OSError kind
                            (os_path_join output_dir "failed_indexes.npy")))
               end
           end
       end.
Proof.
  split; [apply save_outputs_paths|apply save_outputs_eq].
Qed.

(** X16. The notebook from the first loop to the saved files, when the
    operating system writes both files below [OUTPUT_DIR] (the directory
    exists, may be written and has room): it ends without an exception
    and [vocab_matrix.npy] holds a matrix of 10 rows and one column per
    image. If every image is turned into a vector, [failed_indexes.npy] is
    not written, so a file of that name left by an earlier run stays as it
    was; an image that is not turned into a vector has its index in the
    array the file then holds. *)
Theorem run_and_save_files
    (lib : library) (os : string -> npy -> save_result) (output_dir : string)
    (images : list image) (uninitialized : nat -> label_map) (fs : files) :
  (forall arr, os (os_path_join output_dir "vocab_matrix.npy") arr = Saved) ->
  (forall arr, os (os_path_join output_dir "failed_indexes.npy") arr = Saved) ->
  exists fs' m,
    run_and_save lib os output_dir images uninitialized fs = (fs', None)
    /\ fs' !! os_path_join output_dir "vocab_matrix.npy" = Some (FloatArray m)
    /\ has_shape m 10 (length images)
    /\ ((forall i image, images !! i = Some image ->
           exists vocab, process_image lib image = inr vocab) ->
        fs' !! os_path_join output_dir "failed_indexes.npy"
          = fs !! os_path_join output_dir "failed_indexes.npy")
    /\ (forall i image e,
          images !! i = Some image -> process_image lib image = inl e ->
          exists indexes,
            fs' !! os_path_join output_dir "failed_indexes.npy"
              = Some (IntArray indexes)
            /\ In i indexes).
Proof.
  intros Hov Hof.
  destruct (run_notebook_shape lib images uninitialized) as (m & g & Hrun & Hm).
  destruct (save_outputs_paths output_dir) as (Hne & _ & _).
  pose proof (save_outputs_eq os output_dir m g fs) as Hsave.
  rewrite Hov, Hof in Hsave. cbv zeta in Hsave.
  unfold run_and_save. rewrite Hrun, Hsave. unfold files in *.
  destruct (failed_indexes g) as [|[k stage] l] eqn:Eg.
  - eexists _, m. split; [reflexivity|].
    split; [apply lookup_insert_eq|]. split; [exact Hm|]. split.
    + intros _. apply lookup_insert_ne. exact Hne.
    + intros i image e Himg Hp. exfalso.
      pose proof (in_failed_index_list_run lib _ _ _ _ i image Hrun Himg) as H.
      rewrite Hp in H. unfold failed_index_list in H. rewrite Eg in H.
      destruct H.
  - eexists _, m. split; [reflexivity|].
    split.
    { etrans; [apply lookup_insert_ne; congruence|apply lookup_insert_eq]. }
    split; [exact Hm|]. split.
    + intros Hall. exfalso.
      assert (Hk : In k (failed_index_list g)).
      { unfold failed_index_list. rewrite Eg. now left. }
      assert (Hlt : (k < length images)%nat).
      { unfold failed_index_list in Hk.
        rewrite (failed_index_list_run _ _ _ _ _ Hrun) in Hk.
        apply in_app_or in Hk as [Hk|Hk];
          apply List.filter_In in Hk as [Hk _]; now apply in_range in Hk. }
      destruct (lookup_lt_is_Some_2 _ _ Hlt) as [image Himg].
      destruct (Hall k image Himg) as [vocab Hp].
      pose proof (in_failed_index_list_run lib _ _ _ _ k image Hrun Himg) as H.
      rewrite Hp in H. contradiction.
    + intros i image e Himg Hp.
      pose proof (in_failed_index_list_run lib _ _ _ _ i image Hrun Himg) as H.
      rewrite Hp in H.
      eexists. split; [apply lookup_insert_eq|exact H].
Qed.

(** ** Closed instances of the further properties *)

Lemma find_target_region_returns_survivor_witness :
  (length (List.filter large_and_round
             (regionprops
                (Doubles.lib_with [Doubles.too_small; Doubles.right_lobe])
                [] Doubles.tall)) <= 2)%nat
  /\ find_target_region
       (Doubles.lib_with [Doubles.too_small; Doubles.right_lobe])
       [] Doubles.tall = inr Doubles.right_lobe
  /\ In Doubles.right_lobe
        (regionprops (Doubles.lib_with [Doubles.too_small; Doubles.right_lobe])
                     [] Doubles.tall)
  /\ (AREA_THRESHOLD <= area Doubles.right_lobe)%Z
  /\ Float64.lt (eccentricity Doubles.right_lobe) ECCENTRICITY_THRESHOLD = true
  /\ In Doubles.right_lobe
        (top_two (regionprops
                    (Doubles.lib_with [Doubles.too_small; Doubles.right_lobe])
                    [] Doubles.tall))
  /\ (length (top_two (regionprops
                         (Doubles.lib_with [Doubles.too_small; Doubles.right_lobe])
                         [] Doubles.tall)) <= 2)%nat.
Proof.
  assert (Hfew : (length (List.filter large_and_round
                    (regionprops
                       (Doubles.lib_with [Doubles.too_small; Doubles.right_lobe])
                       [] Doubles.tall)) <= 2)%nat)
    by (simpl; lia).
  split; [exact Hfew|]. split; [reflexivity|].
  exact (find_target_region_returns_survivor
           (Doubles.lib_with [Doubles.too_small; Doubles.right_lobe])
           [] Doubles.tall Doubles.right_lobe (or_introl Hfew) eq_refl).
Defined.

Lemma find_target_region_among_two_brightest_witness :
  Forall (fun x => is_nan (mean_intensity x) = false)
         (List.filter large_and_round
            (regionprops
               (Doubles.lib_with [Samples.dim; Samples.bright; Samples.medium])
               [] Doubles.tall))
  /\ find_target_region
       (Doubles.lib_with [Samples.dim; Samples.bright; Samples.medium])
       [] Doubles.tall = inr Samples.medium
  /\ exists rest,
       Permutation
         (List.filter large_and_round
            (regionprops
               (Doubles.lib_with [Samples.dim; Samples.bright; Samples.medium])
               [] Doubles.tall))
         (top_two (regionprops
                     (Doubles.lib_with [Samples.dim; Samples.bright; Samples.medium])
                     [] Doubles.tall) ++ rest)
       /\ forall c, In c rest ->
            Float64.le (mean_intensity c) (mean_intensity Samples.medium) = true.
Proof.
  assert (Hnum : Forall (fun x => is_nan (mean_intensity x) = false)
            (List.filter large_and_round
               (regionprops
                  (Doubles.lib_with [Samples.dim; Samples.bright; Samples.medium])
                  [] Doubles.tall))).
  { repeat constructor. }
  split; [exact Hnum|]. split; [reflexivity|].
  exact (find_target_region_among_two_brightest
           (Doubles.lib_with [Samples.dim; Samples.bright; Samples.medium])
           [] Doubles.tall Samples.medium Hnum eq_refl).
Defined.

Lemma find_target_region_far_tie_witness :
  Forall (fun x => is_nan (mean_intensity x) = false)
         (List.filter large_and_round
            (regionprops
               (Doubles.lib_with
                  [Samples.dim; Doubles.top_blob; Doubles.bottom_blob])
               [] Doubles.tall))
  /\ top_two (regionprops
                (Doubles.lib_with
                   [Samples.dim; Doubles.top_blob; Doubles.bottom_blob])
                [] Doubles.tall)
     = [Doubles.top_blob; Doubles.bottom_blob]
  /\ two_regions_close [Doubles.top_blob; Doubles.bottom_blob] = false
  /\ Float64.lt (mean_intensity Doubles.top_blob)
                (mean_intensity Doubles.bottom_blob) = false
  /\ Float64.lt 11.180339887498949 95.13148795220224 = true
  /\ find_target_region
       (Doubles.lib_with [Samples.dim; Doubles.top_blob; Doubles.bottom_blob])
       [] Doubles.tall = inr Doubles.bottom_blob.
Proof.
  assert (Hnum : Forall (fun x => is_nan (mean_intensity x) = false)
            (List.filter large_and_round
               (regionprops
                  (Doubles.lib_with
                     [Samples.dim; Doubles.top_blob; Doubles.bottom_blob])
                  [] Doubles.tall))).
  { vm_compute. repeat constructor. }
  split; [exact Hnum|]. split; [reflexivity|]. split; [reflexivity|].
  destruct (find_target_region_far_tie
              (Doubles.lib_with
                 [Samples.dim; Doubles.top_blob; Doubles.bottom_blob])
              [] Doubles.tall Doubles.top_blob Doubles.bottom_blob
              (or_intror Hnum) eq_refl eq_refl) as [Hbright Hreturn].
  split; [exact Hbright|]. split; [reflexivity|]. exact Hreturn.
Defined.

Lemma column_is_zero_or_vector_witness :
  [Doubles.speck] !! 0%nat = Some Doubles.speck
  /\ exists m g,
       run_notebook Doubles.lib [Doubles.speck] Doubles.zero_filled = inr (m, g)
       /\ (mcolumn m 0 = Some (replicate 10 0%float)
           \/ exists region_label r vocab,
                find_target_region Doubles.lib region_label Doubles.speck = inr r
                /\ extract_vocab r = inr vocab
                /\ mcolumn m 0 = Some vocab).
Proof.
  split; [reflexivity|].
  exact (column_is_zero_or_vector Doubles.lib [Doubles.speck]
           Doubles.zero_filled 0%nat Doubles.speck eq_refl).
Defined.

Lemma selection_failure_recorded_once_witness :
  [Doubles.speck] !! 0%nat = Some Doubles.speck
  /\ extract_region_label Doubles.lib Doubles.speck = inr Samples.speck_labels
  /\ find_target_region Doubles.lib Samples.speck_labels Doubles.speck
     = inl (ValueError [AStr "bad threshold"; APairs [(1%Z, 0%float)]])
  /\ exists m g,
       run_notebook Doubles.lib [Doubles.speck] Doubles.zero_filled = inr (m, g)
       /\ count_index 0 (failed_indexes g) = 1%nat
       /\ In (0%nat, "find_target_region") (failed_indexes g)
       /\ mcolumn m 0 = Some (replicate 10 0%float)
       /\ In (0%nat,
              [AStr "bad threshold";
               APairs (map (fun r => (area r, eccentricity r))
                           (regionprops Doubles.lib Samples.speck_labels
                                        Doubles.speck))])
             (printed g).
Proof.
  split; [reflexivity|]. split; [reflexivity|]. split; [reflexivity|].
  exact (selection_failure_recorded_once Doubles.lib [Doubles.speck]
           Doubles.zero_filled 0%nat Doubles.speck Samples.speck_labels
           (ValueError [AStr "bad threshold"; APairs [(1%Z, 0%float)]])
           eq_refl eq_refl eq_refl).
Defined.

Lemma success_fills_column_witness :
  [Doubles.speck] !! 0%nat = Some Doubles.speck
  /\ process_image (Doubles.lib_with [Doubles.right_lobe]) Doubles.speck
     = inr [40; 0.5; 0; 0; 0; 0; 0; 7; 7; 7]%float
  /\ exists m g,
       run_notebook (Doubles.lib_with [Doubles.right_lobe]) [Doubles.speck]
                    Doubles.zero_filled = inr (m, g)
       /\ ~ In 0%nat (failed_index_list g)
       /\ mcolumn m 0 = Some [40; 0.5; 0; 0; 0; 0; 0; 7; 7; 7]%float.
Proof.
  split; [reflexivity|]. split; [reflexivity|].
  exact (success_fills_column (Doubles.lib_with [Doubles.right_lobe])
           [Doubles.speck] Doubles.zero_filled 0%nat Doubles.speck
           [40; 0.5; 0; 0; 0; 0; 0; 7; 7; 7]%float eq_refl eq_refl).
Defined.

Lemma extract_vocab_from_region_labels_missing_slot_witness :
  (length (@nil label_map) < length [Doubles.speck])%nat
  /\ extract_vocab_from_region_labels Doubles.lib [] [Doubles.speck]
       {| failed_indexes := []; printed := [] |} = inl IndexError.
Proof.
  assert (Hlen : (length (@nil label_map) < length [Doubles.speck])%nat)
    by (simpl; lia).
  split; [exact Hlen|].
  exact (extract_vocab_from_region_labels_missing_slot Doubles.lib []
           [Doubles.speck] {| failed_indexes := []; printed := [] |} Hlen).
Defined.

Lemma select_region_order_independent_witness :
  Permutation [Samples.dim; Samples.bright] [Samples.bright; Samples.dim]
  /\ NoDup (List.filter large_and_round [Samples.dim; Samples.bright])
  /\ List.filter large_and_round [Samples.dim; Samples.bright] <> []
  /\ select_region [Samples.dim; Samples.bright] 100
     = select_region [Samples.bright; Samples.dim] 100.
Proof.
  assert (Hp : Permutation [Samples.dim; Samples.bright]
                           [Samples.bright; Samples.dim]) by apply perm_swap.
  assert (Hnd : NoDup (List.filter large_and_round [Samples.dim; Samples.bright])).
  { simpl. apply NoDup_cons. split.
    - intros H. apply list_elem_of_In in H. destruct H as [H|[]]. discriminate H.
    - apply NoDup_cons. split; [intros H; inversion H|apply NoDup_nil_2]. }
  assert (Hne : List.filter large_and_round [Samples.dim; Samples.bright] <> [])
    by (simpl; discriminate).
  split; [exact Hp|]. split; [exact Hnd|]. split; [exact Hne|].
  apply (select_region_order_independent _ _ 100 Hp Hnd); [|exact Hne].
  intros u v [<-|[<-|[]]] [<-|[<-|[]]] Huv;
    try (exfalso; now apply Huv); [left|right]; reflexivity.
Defined.

Lemma two_runs_differ_on_threshold_failure_witness :
  [Samples.flat6] !! 0%nat = Some Samples.flat6
  /\ threshold_otsu Doubles.lib Samples.flat6 = None
  /\ find_target_region Doubles.lib (Samples.zeroed_pages 0) Samples.flat6
     = inl (ValueError [AStr "bad threshold"; APairs []])
  /\ find_target_region Doubles.lib (Samples.stale_pages 0) Samples.flat6
     = inr (Doubles.candidate 36 0 (0, 0)%float 0)
  /\ run_notebook Doubles.lib [Samples.flat6] Samples.zeroed_pages
     = inr (np_zeros 10 1,
            {| failed_indexes :=
                 [(0%nat, "extract_region_label"); (0%nat, "find_target_region")];
               printed :=
                 [(0%nat, [AStr "invalid image for otsu thresholding"; AFloat 3]);
                  (0%nat, [AStr "bad threshold"; APairs []])] |})
  /\ run_notebook Doubles.lib [Samples.flat6] Samples.stale_pages
     = inr ([[36]; [0]; [0]; [0]; [0]; [0]; [0]; [0]; [0]; [0]]%float,
            {| failed_indexes := [(0%nat, "extract_region_label")];
               printed :=
                 [(0%nat, [AStr "invalid image for otsu thresholding"; AFloat 3])]
            |})
  /\ exists m1 g1 m2 g2 vocab,
       run_notebook Doubles.lib [Samples.flat6] Samples.zeroed_pages
         = inr (m1, g1)
       /\ run_notebook Doubles.lib [Samples.flat6] Samples.stale_pages
          = inr (m2, g2)
       /\ count_index 0 (failed_indexes g1) = 2%nat
       /\ count_index 0 (failed_indexes g2) = 1%nat
       /\ failed_index_list g1 <> failed_index_list g2
       /\ mcolumn m1 0 = Some (replicate 10 0%float)
       /\ extract_vocab (Doubles.candidate 36 0 (0, 0)%float 0) = inr vocab
       /\ mcolumn m2 0 = Some vocab.
Proof.
  split; [reflexivity|]. split; [reflexivity|].
  split; [vm_compute; reflexivity|]. split; [vm_compute; reflexivity|].
  split; [vm_compute; reflexivity|]. split; [vm_compute; reflexivity|].
  exact (two_runs_differ_on_threshold_failure Doubles.lib [Samples.flat6]
           Samples.zeroed_pages Samples.stale_pages 0%nat Samples.flat6
           (ValueError [AStr "bad threshold"; APairs []])
           (Doubles.candidate 36 0 (0, 0)%float 0)
           eq_refl eq_refl eq_refl eq_refl).
Defined.

Lemma run_and_save_files_witness :
  (forall arr,
     Samples.only_out (os_path_join "out" "vocab_matrix.npy") arr = Saved)
  /\ (forall arr,
        Samples.only_out (os_path_join "out" "failed_indexes.npy") arr = Saved)
  /\ exists fs' m,
       run_and_save (Doubles.lib_with [Doubles.right_lobe]) Samples.only_out
                    "out" [Doubles.speck; Doubles.flat] Doubles.zero_filled
                    (empty : files) = (fs', None)
       /\ fs' !! os_path_join "out" "vocab_matrix.npy" = Some (FloatArray m)
       /\ has_shape m 10 (length [Doubles.speck; Doubles.flat])
       /\ ((forall i image,
              [Doubles.speck; Doubles.flat] !! i = Some image ->
              exists vocab,
                process_image (Doubles.lib_with [Doubles.right_lobe]) image
                  = inr vocab) ->
           fs' !! os_path_join "out" "failed_indexes.npy"
             = (empty : files) !! os_path_join "out" "failed_indexes.npy")
       /\ (forall i image e,
             [Doubles.speck; Doubles.flat] !! i = Some image ->
             process_image (Doubles.lib_with [Doubles.right_lobe]) image
               = inl e ->
             exists indexes,
               fs' !! os_path_join "out" "failed_indexes.npy"
                 = Some (IntArray indexes)
               /\ In i indexes).
Proof.
  split; [reflexivity|]. split; [reflexivity|].
  exact (run_and_save_files (Doubles.lib_with [Doubles.right_lobe])
           Samples.only_out "out" [Doubles.speck; Doubles.flat]
           Doubles.zero_filled (empty : files)
           (fun _ => eq_refl) (fun _ => eq_refl)).
Defined.

(** A batch saved below [out]: image 0 becomes a vector, image 1 is
    recorded; with no earlier files, both files exist afterwards. *)
Example run_and_save_sample :
  exists fs',
    run_and_save (Doubles.lib_with [Doubles.right_lobe]) Samples.only_out "out"
                 [Doubles.speck; Doubles.flat] Doubles.zero_filled
                 (empty : files) = (fs', None)
    /\ fs' !! "out/failed_indexes.npy" = Some (IntArray [1%nat])
    /\ exists m, fs' !! "out/vocab_matrix.npy" = Some (FloatArray m)
                 /\ mcolumn m 0 = Some [40; 0.5; 0; 0; 0; 0; 0; 7; 7; 7]%float.
Proof.
  eexists. split; [vm_compute; reflexivity|].
  split; [reflexivity|]. eexists. split; reflexivity.
Qed.

(** The same batch saved below a directory that does not exist: the run
    ends in the [FileNotFoundError] of the first path, and nothing is
    saved. *)
Example run_and_save_missing_directory :
  run_and_save (Doubles.lib_with [Doubles.right_lobe]) Samples.only_out
               "results" [Doubles.speck; Doubles.flat] Doubles.zero_filled
               (empty : files)
  = (empty, Some (OSError FileNotFoundError "results/vocab_matrix.npy")).
Proof. vm_compute. reflexivity. Qed.
